(** * Bioloid bus master: the command layer of [bioloid/bus.py]

    A shallow embedding of the [Bus] class (frame building, the status
    read loop, ping / read / write / reset / action / sync_write / scan)
    over an explicit model of the serial line, followed by the theorems
    that relate it to the natural-language specification. *)

From Stdlib Require Import ZArith List Bool Lia Sorted.
Import ListNotations.
Open Scope Z_scope.

(** ** Python values and exceptions *)

(** The exceptions that the methods of [Bus] can raise: the two
    built-ins that [bytearray] stores and list indexing produce, and the
    module's own [BusError], which carries an error code. *)
Inductive exn : Type :=
| ValueError
| IndexError
| BusError (error_code : Z).

Inductive result (A : Type) : Type :=
| Ok (a : A)
| Raise (e : exn).

Arguments Ok {A} a.
Arguments Raise {A} e.

(** [sum(...)] over a sequence of ints. *)
Definition zsum (l : list Z) : Z := fold_right Z.add 0 l.

(** Truth value of an int, as in [if self.show & Bus.SHOW_COMMANDS:]. *)
Definition truthy (z : Z) : bool := negb (z =? 0).

(** ** [bytearray]

    A bytearray is a list of ints, each in [range(0, 256)].  Stores check
    the value (ValueError) and then the index (IndexError), the order of
    CPython 3.11; slices clamp their bounds and a slice assignment may
    change the length. *)
Module bytearray.

Definition in_range (v : Z) : bool := (0 <=? v) && (v <? 256).

(** [bytearray(n)]: [n] zero bytes. *)
Definition zeros (n : nat) : list Z := repeat 0 n.

(** [bytearray(iterable_of_ints)] *)
Definition of_ints (l : list Z) : result (list Z) :=
  if forallb in_range l then Ok l else Raise ValueError.

Definition len (b : list Z) : Z := Z.of_nat (length b).

(** Index normalisation of [b[i]]: a negative index counts from the end. *)
Definition index (b : list Z) (i : Z) : option nat :=
  let j := if i <? 0 then i + len b else i in
  if (0 <=? j) && (j <? len b) then Some (Z.to_nat j) else None.

(** [b[i]] *)
Definition getitem (b : list Z) (i : Z) : result Z :=
  match index b i with
  | Some j => Ok (nth j b 0)
  | None => Raise IndexError
  end.

(** [b[i] = v] *)
Definition setitem (b : list Z) (i v : Z) : result (list Z) :=
  if in_range v then
    match index b i with
    | Some j => Ok (firstn j b ++ v :: skipn (S j) b)
    | None => Raise IndexError
    end
  else Raise ValueError.

(** Bound normalisation of a slice [b[lo:hi]]. *)
Definition clamp (b : list Z) (i : Z) : nat :=
  Z.to_nat (if i <? 0 then Z.max (i + len b) 0 else Z.min i (len b)).

Definition bounds (b : list Z) (lo hi : option Z) : nat * nat :=
  (match lo with Some i => clamp b i | None => 0%nat end,
   match hi with Some i => clamp b i | None => length b end).

(** [b[lo:hi]] *)
Definition getslice (b : list Z) (lo hi : option Z) : list Z :=
  let '(l, h) := bounds b lo hi in
  firstn (h - l) (skipn l b).

(** [b[lo:hi] = data] *)
Definition setslice (b : list Z) (lo hi : option Z) (data : list Z)
  : result (list Z) :=
  let '(l, h) := bounds b lo hi in
  if forallb in_range data
  then Ok (firstn l b ++ data ++ skipn (Nat.max l h) b)
  else Raise ValueError.

End bytearray.

(** ** The diagnostic sink

    [log] and [dump_mem] receive formatted text; the embedding keeps which
    statement logged and the values that it formatted. *)
Inductive log_line : Type :=
| LogBroadcastingAction
| LogSendingPing (dev_id : Z)
| LogSendingRead (dev_id offset num_bytes : Z)
| LogBroadcastingReset
| LogSendingReset (dev_id : Z)
| LogBroadcastingWrite (deferred : bool) (offset : Z) (len : nat)
| LogSendingWrite (deferred : bool) (dev_id offset : Z) (len : nat)
| LogSendingSyncWrite (dev_ids : list Z) (offset : Z) (len : nat)
| LogDumpW (pkt_bytes : list Z)
| LogTimeout
| LogNoData
| LogOverHeating (dev_id : Z)
| LogChecksum
| LogStatusNone (dev_id : Z)
| LogReceived (received_bytes : list Z).

(** ** The serial line

    What an execution can observe of the outside world: frames handed to
    [write_packet], the outcome of every [read_byte], and the calls of the
    two scan callbacks. *)
Inductive event : Type :=
| EvWrite (pkt_bytes : list Z)
| EvRead (byte : option Z)
| EvFound (dev_id : Z)
| EvMissing (dev_id : Z).

(** [rx] holds the outcomes of the coming [read_byte] calls ([None] is an
    elapsed timeout); once it is empty every read times out.  [trace] is
    the chronological record of events, [diag] the diagnostic sink. *)
Record World : Type := mkWorld {
  rx : list (option Z);
  trace : list event;
  diag : list log_line
}.

(** Computations of the bus: state passing over the world, with
    exceptions. *)
Definition M (A : Type) : Type := World -> result A * World.

Definition ret {A} (a : A) : M A := fun w => (Ok a, w).

Definition raise {A} (e : exn) : M A := fun w => (Raise e, w).

Definition bind {A B} (c : M A) (k : A -> M B) : M B :=
  fun w =>
    match c w with
    | (Ok a, w') => k a w'
    | (Raise e, w') => (Raise e, w')
    end.

Definition lift {A} (r : result A) : M A := fun w => (r, w).

Declare Scope bus_scope.
Delimit Scope bus_scope with bus.
Notation "x <- c ;; k" := (bind c (fun x => k))
  (at level 100, c at next level, right associativity) : bus_scope.
Notation "c ;;; k" := (bind c (fun _ => k))
  (at level 100, right associativity) : bus_scope.
Open Scope bus_scope.

Definition log (l : log_line) : M unit :=
  fun w => (Ok tt, mkWorld (rx w) (trace w) (diag w ++ [l])).

Definition emit (e : event) (w : World) : World :=
  mkWorld (rx w) (trace w ++ [e]) (diag w).

(** [if c: body] for a body that returns nothing. *)
Definition when (c : bool) (body : M unit) : M unit :=
  if c then body else ret tt.

(** ** The [bioloid.packet] module

    [bus.py] imports its command codes, error codes, the broadcast id and
    the [Packet] parser from [bioloid.packet].  The bus is modelled over
    any such module. *)
Class PacketModule : Type := {
  Id_BROADCAST : Z;
  Command_PING : Z;
  Command_READ : Z;
  Command_WRITE : Z;
  Command_REG_WRITE : Z;
  Command_ACTION : Z;
  Command_RESET : Z;
  Command_SYNC_WRITE : Z;
  ErrorCode_NONE : Z;
  ErrorCode_NOT_DONE : Z;
  ErrorCode_TIMEOUT : Z;
  ErrorCode_OVERHEATING : Z;
  ErrorCode_CHECKSUM : Z;
  Packet : Type;
  Packet_new : Packet;
  process_byte : Packet -> Z -> Z * Packet;
  Packet_dev_id : Packet -> Z;
  Packet_params : Packet -> list Z;
  Packet_error_code : Packet -> Z
}.

(** ** [class Bus] *)

Definition SHOW_NONE : Z := 0.
Definition SHOW_COMMANDS : Z := Z.shiftl 1 0.
Definition SHOW_PACKETS : Z := Z.shiftl 1 1.

Record Bus : Type := mkBus { show : Z }.

Section BusMethods.

Context {pk : PacketModule}.

(** The devices on the line: from the events so far and the frame just
    written, the read outcomes that the frame makes available. *)
Variable respond : list event -> list Z -> list (option Z).

(** *** [SerialPort] (serial_port.py) *)

Definition read_byte : M (option Z) :=
  fun w =>
    match rx w with
    | [] => (Ok None, mkWorld [] (trace w ++ [EvRead None]) (diag w))
    | r :: rest => (Ok r, mkWorld rest (trace w ++ [EvRead r]) (diag w))
    end.

Definition write_packet (packet_data : list Z) : M unit :=
  fun w =>
    (Ok tt, mkWorld (rx w ++ respond (trace w) packet_data)
                    (trace w ++ [EvWrite packet_data]) (diag w)).

(** *** [Bus.fill_and_write_packet] *)

Definition fill_and_write_packet (self : Bus) (dev_id cmd : Z)
           (data : option (list Z)) : M unit :=
  let packet_len :=
    (6 + match data with Some d => length d | None => 0 end)%nat in
  let pkt_bytes := bytearray.zeros packet_len in
  pkt_bytes <- lift (bytearray.setitem pkt_bytes 0 255) ;;
  pkt_bytes <- lift (bytearray.setitem pkt_bytes 1 255) ;;
  pkt_bytes <- lift (bytearray.setitem pkt_bytes 2 dev_id) ;;
  pkt_bytes <- lift (bytearray.setitem pkt_bytes 3 2) ;;
  pkt_bytes <- lift (bytearray.setitem pkt_bytes 4 cmd) ;;
  pkt_bytes <-
    match data with
    | Some d =>
        len_byte <- lift (bytearray.getitem pkt_bytes 3) ;;
        pkt_bytes <- lift (bytearray.setitem pkt_bytes 3
                             (len_byte + Z.of_nat (length d))) ;;
        lift (bytearray.setslice pkt_bytes (Some 5)
                (Some (Z.of_nat packet_len - 1)) d)
    | None => ret pkt_bytes
    end ;;
  pkt_bytes <- lift (bytearray.setitem pkt_bytes (-1)
                 (Z.land (Z.lnot (zsum (bytearray.getslice pkt_bytes
                                          (Some 2) (Some (-1))))) 255)) ;;
  when (truthy (Z.land (show self) SHOW_PACKETS)) (log (LogDumpW pkt_bytes)) ;;;
  write_packet pkt_bytes.

(** *** [Bus.read_status_packet]

    The [while True:] loop.  Every iteration that goes round again has
    taken one outcome off [rx], so the loop is written by recursion on
    the outcomes still pending; [received_bytes] is the list kept for
    logging.  Lemma [read_status_from_unfold] below gives the loop back
    in terms of [read_byte]. *)

Definition log_received (received_bytes : list Z) : M unit :=
  log (LogReceived received_bytes).

Fixpoint read_status_loop (pending : list (option Z)) (pkt : Packet)
         (received_bytes : list Z) (w : World) : result Packet * World :=
  match pending with
  | Some byte :: rest =>
      (* byte = self.serial_port.read_byte() *)
      let w := mkWorld rest (trace w ++ [EvRead (Some byte)]) (diag w) in
      let received_bytes := received_bytes ++ [byte] in
      let '(error_code, pkt) := process_byte pkt byte in
      if error_code =? ErrorCode_NOT_DONE then
        read_status_loop rest pkt received_bytes w
      else if error_code =? ErrorCode_NONE then
        (log (LogStatusNone (Packet_dev_id pkt)) ;;;
         log_received received_bytes ;;;
         ret pkt) w
      else
        ((if error_code =? ErrorCode_OVERHEATING then
            log (LogOverHeating (Packet_dev_id pkt))
          else if error_code =? ErrorCode_CHECKSUM then
            log LogChecksum
          else ret tt) ;;;
         log_received received_bytes ;;;
         raise (BusError error_code)) w
  | rest =>
      (* read_byte() returned None *)
      (log LogTimeout ;;;
       log LogNoData ;;;
       raise (BusError ErrorCode_TIMEOUT))
        (mkWorld (tl rest) (trace w ++ [EvRead None]) (diag w))
  end.

Definition read_status_from (pkt : Packet) (received_bytes : list Z)
  : M Packet :=
  fun w => read_status_loop (rx w) pkt received_bytes w.

Definition read_status_packet (self : Bus) : M Packet :=
  read_status_from Packet_new [].

(** *** The [send_*] methods *)

Definition shows (self : Bus) (flag : Z) : bool :=
  truthy (Z.land (show self) flag).

Definition send_ping (self : Bus) (dev_id : Z) : M unit :=
  when (shows self SHOW_COMMANDS) (log (LogSendingPing dev_id)) ;;;
  fill_and_write_packet self dev_id Command_PING None.

Definition send_read (self : Bus) (dev_id offset num_bytes : Z) : M unit :=
  when (shows self SHOW_COMMANDS)
       (log (LogSendingRead dev_id offset num_bytes)) ;;;
  data <- lift (bytearray.of_ints [offset; num_bytes]) ;;
  fill_and_write_packet self dev_id Command_READ (Some data).

Definition send_reset (self : Bus) (dev_id : Z) : M unit :=
  when (shows self SHOW_COMMANDS)
       (if dev_id =? Id_BROADCAST
        then log LogBroadcastingReset
        else log (LogSendingReset dev_id)) ;;;
  fill_and_write_packet self dev_id Command_RESET None.

Definition send_write (self : Bus) (dev_id offset : Z) (data : list Z)
           (deferred : bool) : M unit :=
  when (shows self SHOW_COMMANDS)
       (if dev_id =? Id_BROADCAST
        then log (LogBroadcastingWrite deferred offset (length data))
        else log (LogSendingWrite deferred dev_id offset (length data))) ;;;
  let cmd := if deferred then Command_REG_WRITE else Command_WRITE in
  let pkt_data := bytearray.zeros (length data) in
  pkt_data <- lift (bytearray.setitem pkt_data 0 offset) ;;
  pkt_data <- lift (bytearray.setslice pkt_data (Some 1) None data) ;;
  fill_and_write_packet self dev_id cmd (Some pkt_data).

(** *** The public operations *)

Definition action (self : Bus) : M unit :=
  when (shows self SHOW_COMMANDS) (log LogBroadcastingAction) ;;;
  fill_and_write_packet self Id_BROADCAST Command_ACTION None.

(** [try: c  except BusError as ex: handler(ex.get_error_code())] *)
Definition try_except_BusError {A} (c : M A) (handler : Z -> M A) : M A :=
  fun w =>
    match c w with
    | (Raise (BusError error_code), w') => handler error_code w'
    | other => other
    end.

Definition ping (self : Bus) (dev_id : Z) : M bool :=
  send_ping self dev_id ;;;
  try_except_BusError
    (read_status_packet self ;;; ret true)
    (fun error_code =>
       if error_code =? ErrorCode_TIMEOUT
       then ret false
       else raise (BusError error_code)).

Definition read (self : Bus) (dev_id offset num_bytes : Z) : M (list Z) :=
  send_read self dev_id offset num_bytes ;;;
  pkt <- read_status_packet self ;;
  ret (Packet_params pkt).

Definition reset (self : Bus) (dev_id : Z) : M Z :=
  send_reset self dev_id ;;;
  if dev_id =? Id_BROADCAST then ret ErrorCode_NONE
  else
    pkt <- read_status_packet self ;;
    ret (Packet_error_code pkt).

Definition write (self : Bus) (dev_id offset : Z) (data : list Z)
           (deferred : bool) : M Z :=
  send_write self dev_id offset data deferred ;;;
  if dev_id =? Id_BROADCAST then ret ErrorCode_NONE
  else
    pkt <- read_status_packet self ;;
    ret (Packet_error_code pkt).

(** [for x in xs: body], threading the local variables [s]. *)
Fixpoint for_in {A S} (xs : list A) (body : A -> S -> M S) (s : S) : M S :=
  match xs with
  | [] => ret s
  | x :: xs => s <- body x s ;; for_in xs body s
  end.

(** [l[i]] on a Python list. *)
Definition list_getitem {A} (l : list A) (i : nat) : result A :=
  match nth_error l i with
  | Some a => Ok a
  | None => Raise IndexError
  end.

(** [range(lo, hi)] *)
Definition range (lo hi : Z) : list Z :=
  map (fun i => lo + Z.of_nat i) (seq 0 (Z.to_nat (hi - lo))).

Definition sync_write (self : Bus) (dev_ids : list Z) (offset : Z)
           (values : list (list Z)) : M unit :=
  when (shows self SHOW_COMMANDS)
       (v0 <- lift (list_getitem values 0) ;;
        log (LogSendingSyncWrite dev_ids offset (length v0))) ;;;
  let num_ids := length dev_ids in
  if negb (num_ids =? length values)%nat then raise ValueError
  else
    v0 <- lift (list_getitem values 0) ;;
    let bytes_per_id := length v0 in
    let param_len := (num_ids * (bytes_per_id + 1) + 2)%nat in
    let data := bytearray.zeros param_len in
    data <- lift (bytearray.setitem data 0 offset) ;;
    data <- lift (bytearray.setitem data 1 (Z.of_nat bytes_per_id)) ;;
    let data_idx := 2 in
    st <- for_in (seq 0 num_ids)
            (fun id_idx '(data, data_idx) =>
               v <- lift (list_getitem values id_idx) ;;
               if negb (length v =? bytes_per_id)%nat then raise ValueError
               else
                 dev_id <- lift (list_getitem dev_ids id_idx) ;;
                 data <- lift (bytearray.setitem data data_idx dev_id) ;;
                 let data_idx := data_idx + 1 in
                 data <- lift (bytearray.setslice data (Some data_idx)
                                 (Some (data_idx + Z.of_nat bytes_per_id)) v) ;;
                 let data_idx := data_idx + Z.of_nat bytes_per_id in
                 ret (data, data_idx))
            (data, data_idx) ;;
    fill_and_write_packet self Id_BROADCAST Command_SYNC_WRITE (Some (fst st)).

(** A scan callback: absent, or a callable given the bus and the id. *)
Definition callback : Type := option (Bus -> Z -> M unit).

Definition call (cb : callback) (self : Bus) (dev_id : Z) : M unit :=
  match cb with
  | Some f => f self dev_id
  | None => ret tt
  end.

Definition scan (self : Bus) (start_id num_ids : Z)
           (dev_found dev_missing : callback) : M bool :=
  let end_id := start_id + num_ids - 1 in
  let end_id := if end_id >=? Id_BROADCAST then Id_BROADCAST - 1 else end_id in
  let some_dev_found := false in
  for_in (range start_id (end_id + 1))
    (fun dev_id some_dev_found =>
       found <- ping self dev_id ;;
       if found then
         call dev_found self dev_id ;;;
         ret true
       else
         call dev_missing self dev_id ;;;
         ret some_dev_found)
    some_dev_found.

End BusMethods.


(** ** A concrete [bioloid.packet] *)

(** Modelled from the spec: the [bioloid.packet] module, which [bus.py]
    imports and which is not part of the sources.  The parser follows the
    PacketParser of the specification: it seeks the two marker bytes, then
    takes the device id, the length, the status byte, [length - 2] payload
    bytes and the checksum, verifies the checksum, and resolves the status
    byte to NONE when it is zero and to the highest-priority fault bit
    that is set otherwise.  The write command is 0x03 as in the
    specification's example frame; the codes that the specification
    leaves to the protocol reference are those of the Dynamixel 1.0
    protocol, and the priority order is most significant bit first.
    The general theorems below quantify over every [PacketModule]; this
    one serves to run the bus on concrete lines. *)
Module SpecPacket.

Inductive state : Type :=
| SeekMarker1
| SeekMarker2
| ReadDeviceId
| ReadLength
| ReadStatusByte
| ReadPayload (remaining : nat)
| ReadChecksum
| Terminal.

Record parser : Type := mkParser {
  st : state;
  dev_id : Z;
  length_byte : Z;
  status : Z;
  payload : list Z;
  code : Z
}.

Definition NONE : Z := 0.
Definition CHECKSUM : Z := 16.
Definition OVERHEATING : Z := 4.
Definition NOT_DONE : Z := 256.
Definition TIMEOUT : Z := 257.

Definition new : parser := mkParser SeekMarker1 0 0 0 [] NOT_DONE.

(** The fault bits, highest priority first. *)
Definition priority : list Z := [128; 64; 32; 16; 8; 4; 2; 1].

(** Modelled from the spec: the resolution of the status byte to one
    error code. *)
Definition resolve (status : Z) : Z :=
  match find (fun bit => negb (Z.land status bit =? 0)) priority with
  | Some bit => bit
  | None => NONE
  end.

Definition goto (s : state) (p : parser) : parser :=
  mkParser s (dev_id p) (length_byte p) (status p) (payload p) (code p).

(** The state after the status byte: [length - 2] payload bytes, then the
    checksum. *)
Definition after_status (length_byte : Z) : state :=
  match Z.to_nat (length_byte - 2) with
  | O => ReadChecksum
  | S n => ReadPayload n
  end.

(** Modelled from the spec: [Packet.process_byte], one step of the
    PacketParser state machine; it returns NOT_DONE while the frame is
    incomplete and the resolved code at the checksum byte. *)
Definition process_byte (p : parser) (byte : Z) : Z * parser :=
  match st p with
  | SeekMarker1 =>
      (NOT_DONE, if byte =? 255 then goto SeekMarker2 p else p)
  | SeekMarker2 =>
      (NOT_DONE, if byte =? 255 then goto ReadDeviceId p else p)
  | ReadDeviceId =>
      (NOT_DONE,
       mkParser ReadLength byte (length_byte p) (status p) (payload p)
                (code p))
  | ReadLength =>
      (NOT_DONE,
       mkParser ReadStatusByte (dev_id p) byte (status p) (payload p)
                (code p))
  | ReadStatusByte =>
      (NOT_DONE,
       mkParser (after_status (length_byte p)) (dev_id p) (length_byte p)
                byte (payload p) (code p))
  | ReadPayload n =>
      (NOT_DONE,
       mkParser (match n with O => ReadChecksum | S m => ReadPayload m end)
                (dev_id p) (length_byte p) (status p) (payload p ++ [byte])
                (code p))
  | ReadChecksum =>
      let total :=
        dev_id p + length_byte p + status p + zsum (payload p) + byte in
      let c :=
        if total mod 256 =? 255 then resolve (status p) else CHECKSUM in
      (c, mkParser Terminal (dev_id p) (length_byte p) (status p)
                   (payload p) c)
  | Terminal => (code p, p)
  end.

(** Modelled from the spec: the constants and the parser that
    [bioloid.packet] exports to [bus.py]. *)
#[export] Instance packet : PacketModule :=
  Build_PacketModule
    (* Id.BROADCAST *) 254
    (* Command: PING READ WRITE REG_WRITE ACTION RESET SYNC_WRITE *)
    1 2 3 4 5 6 131
    (* ErrorCode *) NONE NOT_DONE TIMEOUT OVERHEATING CHECKSUM
    (* Packet *) parser new process_byte dev_id payload code.

(** A line on which only the device with id [only] answers: its status
    frame follows every frame addressed to it. *)
Definition answers (only : Z) (_ : list event) (frame : list Z)
  : list (option Z) :=
  if nth 2 frame 0 =? only
  then map Some [255; 255; only; 2; 0; 255 - (only + 2) mod 256]
  else [].

(** A line on which the device with id [only] answers with a status
    frame whose checksum byte is off by one. *)
Definition garbled (only : Z) (_ : list event) (frame : list Z)
  : list (option Z) :=
  if nth 2 frame 0 =? only
  then map Some [255; 255; only; 2; 0; 254 - (only + 2) mod 256]
  else [].

Definition silent (_ : list event) (_ : list Z) : list (option Z) := [].

Definition idle : World := mkWorld [] [] [].

(** A bus with all tracing off. *)
Definition bus : Bus := mkBus SHOW_NONE.

End SpecPacket.

(** ** The frame layout of the specification

    The FrameCodec of the specification, written from its words:
    [checksum = 255 - (sum mod 256)] over the bytes from the device id to
    the last payload byte, and the frame
    [0xFF 0xFF <device_id> <length> <command> <payload...> <checksum>] with
    [length = 2 + len(payload)]. *)
Module FrameCodec.

Definition checksum (bytes : list Z) : Z := 255 - zsum bytes mod 256.

Definition body (device_id command : Z) (payload : list Z) : list Z :=
  device_id :: 2 + Z.of_nat (length payload) :: command :: payload.

Definition encode (device_id command : Z) (payload : list Z) : list Z :=
  [255; 255] ++ body device_id command payload
             ++ [checksum (body device_id command payload)].

(** The inputs that fit the one-byte fields of the frame. *)
Definition encodable (device_id command : Z) (payload : list Z) : bool :=
  bytearray.in_range device_id && bytearray.in_range command
  && bytearray.in_range (2 + Z.of_nat (length payload))
  && forallb bytearray.in_range payload.

End FrameCodec.

(** ** Observations and outcomes

    The vocabulary of the statements below: what an execution left on
    the trace, and the outcome of sending one frame. *)

(** The frames handed to [write_packet] among some events. *)
Definition writes (es : list event) : list (list Z) :=
  flat_map (fun e => match e with EvWrite f => [f] | _ => [] end) es.

(** The outcomes of [read_byte] among some events. *)
Definition reads (es : list event) : list (option Z) :=
  flat_map (fun e => match e with EvRead r => [r] | _ => [] end) es.

(** The events of [w'] that came after those of [w]. *)
Definition since (w w' : World) : list event :=
  skipn (length (trace w)) (trace w').

(** The checksum property of one frame, in the indexing of the
    specification: bytes 2 .. end sum to 255 mod 256, and the last byte
    is 255 minus the sum of bytes 2 .. end-1 mod 256. *)
Definition checksum_ok (frame : list Z) : Prop :=
  zsum (bytearray.getslice frame (Some 2) None) mod 256 = 255
  /\ bytearray.getitem frame (-1)
     = Ok (255 - zsum (bytearray.getslice frame (Some 2) (Some (-1))) mod 256).

(** Diagnostics touch the sink only. *)
Definition quiet (c : M unit) : Prop :=
  forall w, exists dg, c w = (Ok tt, mkWorld (rx w) (trace w) dg).

(** The outcome of sending one frame: written, or refused with
    [ValueError] and nothing written. *)
Definition sent (valid : bool) (frame : list Z) (w : World)
           (out : result unit * World) : Prop :=
  if valid
  then fst out = Ok tt /\ trace (snd out) = trace w ++ [EvWrite frame]
  else fst out = Raise ValueError /\ trace (snd out) = trace w.

(** The inputs for which [send_write] gets a frame out. *)
Definition writable (dev_id cmd offset : Z) (data : list Z) : bool :=
  negb (length data =? 0)%nat
  && FrameCodec.encodable dev_id cmd (offset :: data).

(** Two worlds that the line cannot tell apart: they differ in the
    diagnostic sink at most. *)
Definition same_line (w1 w2 : World) : Prop :=
  rx w1 = rx w2 /\ trace w1 = trace w2.

Definition same_outcome {A} (o1 o2 : result A * World) : Prop :=
  fst o1 = fst o2 /\ same_line (snd o1) (snd o2).

(** Two computations that do the same to the line and end alike. *)
Definition agree {A} (c1 c2 : M A) : Prop :=
  forall w1 w2, same_line w1 w2 -> same_outcome (c1 w1) (c2 w2).

(** Scan callbacks that record their call on the trace. *)
Definition record_found : callback :=
  Some (fun _ dev_id w => (Ok tt, emit (EvFound dev_id) w)).

Definition record_missing : callback :=
  Some (fun _ dev_id w => (Ok tt, emit (EvMissing dev_id) w)).

(** The body of the [for id_idx in range(num_ids):] loop of [sync_write],
    on the local variables [data] and [data_idx]. *)
Definition sync_write_step (dev_ids : list Z) (values : list (list Z))
           (bytes_per_id : nat) (id_idx : nat) (st : list Z * Z)
  : M (list Z * Z) :=
  let '(data, data_idx) := st in
  v <- lift (list_getitem values id_idx) ;;
  if negb (length v =? bytes_per_id)%nat then raise ValueError
  else
    dev_id <- lift (list_getitem dev_ids id_idx) ;;
    data <- lift (bytearray.setitem data data_idx dev_id) ;;
    let data_idx := data_idx + 1 in
    data <- lift (bytearray.setslice data (Some data_idx)
                    (Some (data_idx + Z.of_nat bytes_per_id)) v) ;;
    let data_idx := data_idx + Z.of_nat bytes_per_id in
    ret (data, data_idx).

Section ScanRuns.

Context {pk : PacketModule}.
Variable respond : list event -> list Z -> list (option Z).

(** The ids of the specification: those of [start_id, start_id + count - 1]
    below the broadcast id, in ascending order. *)
Definition ids_to_scan (start_id count : Z) : list Z :=
  range start_id (Z.min (start_id + count) Id_BROADCAST).

(** One run of the scan over a list of ids: each id is pinged, the ping
    is resolved to found or missing, the matching callback is called,
    and only then the next id is taken up.  [founds] records the
    outcome per id. *)
Inductive scan_run (self : Bus) (dev_found dev_missing : callback)
  : list Z -> World -> list bool -> World -> Prop :=
| scan_done (w : World) :
    scan_run self dev_found dev_missing [] w [] w
| scan_step (dev_id : Z) (ids : list Z) (found : bool) (founds : list bool)
            (w w1 w2 w3 : World) :
    ping respond self dev_id w = (Ok found, w1) ->
    call (if found then dev_found else dev_missing) self dev_id w1
    = (Ok tt, w2) ->
    scan_run self dev_found dev_missing ids w2 founds w3 ->
    scan_run self dev_found dev_missing (dev_id :: ids) w
             (found :: founds) w3.

(** The body of the [for] loop of [scan]. *)
Definition scan_body (self : Bus) (dev_found dev_missing : callback)
           (dev_id : Z) (some_dev_found : bool) : M bool :=
  found <- ping respond self dev_id ;;
  if found then call dev_found self dev_id ;;; ret true
  else call dev_missing self dev_id ;;; ret some_dev_found.



End ScanRuns.

(** ** Further vocabulary: the parser's run, the sync payload, frames *)

Section ParserRuns.

Context {pk : PacketModule}.

(** Feeding [bytes] to the parser one by one while it answers NOT_DONE:
    the parser reached, or [None] when it stopped before the end. *)
Fixpoint assemble (pkt : Packet) (bytes : list Z) : option Packet :=
  match bytes with
  | [] => Some pkt
  | byte :: bytes =>
      let '(error_code, pkt) := process_byte pkt byte in
      if error_code =? ErrorCode_NOT_DONE then assemble pkt bytes else None
  end.

End ParserRuns.

(** The payload of a sync write:
    [offset, bytes_per_device, id1, values1..., id2, values2..., ...]. *)
Definition sync_payload (offset : Z) (dev_ids : list Z)
           (values : list (list Z)) : list Z :=
  offset :: Z.of_nat (length (hd [] values))
  :: flat_map (fun iv => fst iv :: snd iv) (combine dev_ids values).

(** A frame as it goes on the wire: the two markers, a length byte that
    counts the bytes after it, bytes only, and a checksum that fits. *)
Definition wire_frame (frame : list Z) : Prop :=
  firstn 2 frame = [255; 255]
  /\ nth 3 frame 0 = Z.of_nat (length frame) - 4
  /\ Forall (fun byte => 0 <= byte < 256) frame
  /\ checksum_ok frame.

(** A computation that hands only such frames to the transport. *)
Definition writes_frames {A} (c : M A) : Prop :=
  forall w, exists delta,
    trace (snd (c w)) = trace w ++ delta /\ Forall wire_frame (writes delta).

(** * Properties *)

(** ** Arithmetic of the checksum *)

Lemma lnot_land_255 (s : Z) : Z.land (Z.lnot s) 255 = 255 - s mod 256.
Proof.
  change 255 with (Z.ones 8) at 1.
  rewrite Z.land_ones by lia.
  unfold Z.lnot. change (2 ^ 8) with 256.
  pose proof (Z.mod_pos_bound s 256 ltac:(lia)) as Hs.
  symmetry. apply Z.mod_unique with (q := - (s / 256) - 1); [lia|].
  pose proof (Z.div_mod s 256 ltac:(lia)). lia.
Qed.

Lemma zsum_app (l1 l2 : list Z) : zsum (l1 ++ l2) = zsum l1 + zsum l2.
Proof. induction l1 as [|x l1 IH]; simpl; [reflexivity | rewrite IH; lia]. Qed.

Lemma checksum_in_range (bytes : list Z) :
  bytearray.in_range (FrameCodec.checksum bytes) = true.
Proof.
  unfold bytearray.in_range, FrameCodec.checksum.
  pose proof (Z.mod_pos_bound (zsum bytes) 256 ltac:(lia)).
  apply andb_true_intro; split; [apply Z.leb_le | apply Z.ltb_lt]; lia.
Qed.

Lemma checksum_total (bytes : list Z) :
  zsum (bytes ++ [FrameCodec.checksum bytes]) mod 256 = 255.
Proof.
  rewrite zsum_app. unfold FrameCodec.checksum.
  change (zsum [255 - zsum bytes mod 256]) with (255 - zsum bytes mod 256 + 0).
  pose proof (Z.div_mod (zsum bytes) 256 ltac:(lia)).
  pose proof (Z.mod_pos_bound (zsum bytes) 256 ltac:(lia)).
  symmetry. apply Z.mod_unique with (q := zsum bytes / 256); lia.
Qed.

(** ** Stores and slices of a bytearray at known positions *)

Section BytearrayFacts.

Import bytearray.

Lemma index_nonneg (b : list Z) (i : nat) :
  (i < length b)%nat -> index b (Z.of_nat i) = Some i.
Proof.
  intros Hi. unfold index, len.
  destruct (Z.ltb_spec (Z.of_nat i) 0) as [?|_]; [lia|].
  destruct (Z.leb_spec 0 (Z.of_nat i)) as [_|?]; [|lia].
  destruct (Z.ltb_spec (Z.of_nat i) (Z.of_nat (length b))) as [_|?]; [|lia].
  cbn [andb]. now rewrite Nat2Z.id.
Qed.

Lemma index_negative (b : list Z) (i : nat) :
  (0 < i <= length b)%nat ->
  index b (- Z.of_nat i) = Some (length b - i)%nat.
Proof.
  intros Hi. unfold index, len.
  destruct (Z.ltb_spec (- Z.of_nat i) 0) as [_|?]; [|lia].
  destruct (Z.leb_spec 0 (- Z.of_nat i + Z.of_nat (length b))) as [_|?]; [|lia].
  destruct (Z.ltb_spec (- Z.of_nat i + Z.of_nat (length b))
                       (Z.of_nat (length b))) as [_|?]; [|lia].
  cbn [andb]. f_equal. lia.
Qed.

Lemma index_at (pre : list Z) (x : Z) (post : list Z) :
  index (pre ++ x :: post) (Z.of_nat (length pre)) = Some (length pre).
Proof. apply index_nonneg. rewrite length_app. simpl. lia. Qed.

Lemma index_last (pre : list Z) (x : Z) :
  index (pre ++ [x]) (-1) = Some (length pre).
Proof.
  change (-1) with (- Z.of_nat 1). rewrite index_negative.
  - f_equal. rewrite length_app. simpl. lia.
  - rewrite length_app. simpl. lia.
Qed.

Lemma index_empty (i : Z) : index [] i = None.
Proof.
  unfold index, len. cbn [length Z.of_nat].
  destruct (Z.ltb_spec i 0);
    destruct (Z.leb_spec 0 (i + 0)); destruct (Z.leb_spec 0 i);
    destruct (Z.ltb_spec (i + 0) 0); destruct (Z.ltb_spec i 0);
    cbn [andb]; try reflexivity; lia.
Qed.

Lemma splice_at {A} (pre : list A) (x v : A) (post : list A) :
  firstn (length pre) (pre ++ x :: post)
    ++ v :: skipn (S (length pre)) (pre ++ x :: post)
  = pre ++ v :: post.
Proof.
  rewrite firstn_app, firstn_all, Nat.sub_diag. simpl firstn.
  rewrite app_nil_r. f_equal. f_equal.
  change (x :: post) with ([x] ++ post). rewrite app_assoc.
  rewrite skipn_app.
  replace (S (length pre)) with (length (pre ++ [x]))
    by (rewrite length_app; simpl; lia).
  now rewrite skipn_all, Nat.sub_diag.
Qed.

Lemma setitem_at (pre : list Z) (x : Z) (post : list Z) (v : Z) :
  in_range v = true ->
  setitem (pre ++ x :: post) (Z.of_nat (length pre)) v
  = Ok (pre ++ v :: post).
Proof.
  intros Hv. unfold setitem. rewrite Hv, index_at. now rewrite splice_at.
Qed.

Lemma setitem_last (pre : list Z) (x v : Z) :
  in_range v = true ->
  setitem (pre ++ [x]) (-1) v = Ok (pre ++ [v]).
Proof.
  intros Hv. unfold setitem. rewrite Hv, index_last. now rewrite splice_at.
Qed.

Lemma setitem_bad_value (b : list Z) (i v : Z) :
  in_range v = false -> setitem b i v = Raise ValueError.
Proof. intros Hv. unfold setitem. now rewrite Hv. Qed.

Lemma getitem_at (pre : list Z) (x : Z) (post : list Z) :
  getitem (pre ++ x :: post) (Z.of_nat (length pre)) = Ok x.
Proof.
  unfold getitem. rewrite index_at. f_equal.
  rewrite app_nth2 by lia. now rewrite Nat.sub_diag.
Qed.

Lemma clamp_inside (b : list Z) (i : nat) :
  (i <= length b)%nat -> clamp b (Z.of_nat i) = i.
Proof.
  intros Hi. unfold clamp, len.
  replace (Z.of_nat i <? 0) with false by (symmetry; apply Z.ltb_ge; lia).
  rewrite Z.min_l by lia. apply Nat2Z.id.
Qed.

Lemma clamp_from_end (b : list Z) (i : nat) :
  (0 < i <= length b)%nat -> clamp b (- Z.of_nat i) = (length b - i)%nat.
Proof.
  intros Hi. unfold clamp, len.
  replace (- Z.of_nat i <? 0) with true by (symmetry; apply Z.ltb_lt; lia).
  rewrite Z.max_l by lia. lia.
Qed.

(** [b[lo:hi] = data] replaces the middle part. *)
Lemma setslice_at (pre mid post data : list Z) :
  forallb in_range data = true ->
  setslice (pre ++ mid ++ post) (Some (Z.of_nat (length pre)))
           (Some (Z.of_nat (length pre + length mid))) data
  = Ok (pre ++ data ++ post).
Proof.
  intros Hd. unfold setslice, bounds.
  rewrite !clamp_inside by (rewrite !length_app; lia).
  rewrite Hd. f_equal.
  rewrite firstn_app, firstn_all, Nat.sub_diag. simpl firstn.
  rewrite app_nil_r. f_equal. f_equal.
  rewrite Nat.max_r by lia.
  rewrite app_assoc.
  replace (length pre + length mid)%nat with (length (pre ++ mid))
    by apply length_app.
  rewrite skipn_app, skipn_all, Nat.sub_diag. reflexivity.
Qed.

Lemma setslice_bad_value (b : list Z) (lo hi : option Z) (data : list Z) :
  forallb in_range data = false ->
  setslice b lo hi data = Raise ValueError.
Proof.
  intros Hd. unfold setslice. destruct (bounds b lo hi). now rewrite Hd.
Qed.

(** [b[lo:] = data] replaces the tail. *)
Lemma setslice_tail (pre post data : list Z) :
  forallb in_range data = true ->
  setslice (pre ++ post) (Some (Z.of_nat (length pre))) None data
  = Ok (pre ++ data).
Proof.
  intros Hd. unfold setslice, bounds.
  rewrite clamp_inside by (rewrite length_app; lia).
  rewrite Hd. f_equal.
  rewrite firstn_app, firstn_all, Nat.sub_diag. simpl firstn.
  rewrite app_nil_r. f_equal.
  rewrite Nat.max_r by (rewrite length_app; lia).
  now rewrite skipn_all, app_nil_r.
Qed.

(** [b[k:-1]] drops the first [k] bytes and the last one. *)
Lemma getslice_inner (pre mid : list Z) (x : Z) :
  getslice (pre ++ mid ++ [x]) (Some (Z.of_nat (length pre))) (Some (-1))
  = mid.
Proof.
  unfold getslice, bounds.
  rewrite clamp_inside by (rewrite !length_app; lia).
  change (-1) with (- Z.of_nat 1).
  rewrite clamp_from_end by (rewrite !length_app; simpl; lia).
  rewrite skipn_app, skipn_all, Nat.sub_diag. simpl skipn.
  rewrite !length_app. simpl length.
  replace (length pre + (length mid + 1) - 1 - length pre)%nat
    with (length mid) by lia.
  cbn [app].
  rewrite firstn_app, firstn_all, Nat.sub_diag. simpl. apply app_nil_r.
Qed.

(** [b[k:]] drops the first [k] bytes. *)
Lemma getslice_from (pre rest : list Z) :
  getslice (pre ++ rest) (Some (Z.of_nat (length pre))) None = rest.
Proof.
  unfold getslice, bounds.
  rewrite clamp_inside by (rewrite length_app; lia).
  rewrite skipn_app, skipn_all, Nat.sub_diag. cbn [app skipn].
  rewrite length_app.
  replace (length pre + length rest - length pre)%nat
    with (length rest) by lia.
  apply firstn_all.
Qed.

Lemma getitem_last (pre : list Z) (x : Z) :
  getitem (pre ++ [x]) (-1) = Ok x.
Proof.
  unfold getitem. rewrite index_last. f_equal.
  rewrite app_nth2 by lia. now rewrite Nat.sub_diag.
Qed.

Lemma setitem_inside (b : list Z) (i : nat) (v : Z) :
  in_range v = true -> (i < length b)%nat ->
  exists b', setitem b (Z.of_nat i) v = Ok b' /\ length b' = length b.
Proof.
  intros Hv Hi. unfold setitem. rewrite Hv, index_nonneg by exact Hi.
  eexists. split; [reflexivity|].
  rewrite length_app. cbn [length].
  rewrite length_firstn, length_skipn. lia.
Qed.

Lemma setslice_inside (b : list Z) (lo : nat) (data : list Z) :
  forallb in_range data = true -> (lo + length data <= length b)%nat ->
  exists b',
    setslice b (Some (Z.of_nat lo))
             (Some (Z.of_nat lo + Z.of_nat (length data))) data = Ok b'
    /\ length b' = length b.
Proof.
  intros Hd Hlen. unfold setslice, bounds.
  rewrite <- Nat2Z.inj_add. rewrite !clamp_inside by lia. rewrite Hd.
  eexists. split; [reflexivity|].
  rewrite !length_app, length_firstn, length_skipn. lia.
Qed.

Lemma in_range_true (v : Z) : in_range v = true <-> 0 <= v < 256.
Proof.
  unfold in_range. rewrite andb_true_iff, Z.leb_le, Z.ltb_lt. tauto.
Qed.

Lemma skipn_zeros_tail (n : nat) : skipn n (zeros (S n)) = [0].
Proof.
  unfold zeros. induction n as [|n IH]; [reflexivity | exact IH].
Qed.

End BytearrayFacts.

(** ** Observations on the trace *)


Lemma since_app (w w' : World) (delta : list event) :
  trace w' = trace w ++ delta -> since w w' = delta.
Proof.
  intros E. unfold since. rewrite E.
  now rewrite skipn_app, skipn_all, Nat.sub_diag.
Qed.

Lemma since_same (w w' : World) : trace w' = trace w -> since w w' = [].
Proof. intros E. apply since_app. now rewrite app_nil_r. Qed.

Lemma writes_app (a b : list event) : writes (a ++ b) = writes a ++ writes b.
Proof. apply flat_map_app. Qed.

Lemma reads_app (a b : list event) : reads (a ++ b) = reads a ++ reads b.
Proof. apply flat_map_app. Qed.

Lemma writes_reads (rs : list (option Z)) : writes (map EvRead rs) = [].
Proof. induction rs as [|r rs IH]; [reflexivity | exact IH]. Qed.

Lemma reads_map (rs : list (option Z)) : reads (map EvRead rs) = rs.
Proof.
  induction rs as [|r rs IH]; [reflexivity | simpl; now rewrite IH].
Qed.

(** ** Frames: [fill_and_write_packet] against the FrameCodec *)

Section Frames.

Context {pk : PacketModule}.
Variable respond : list event -> list Z -> list (option Z).

Import bytearray.

Lemma setitem_0 (a : Z) (rest : list Z) (v : Z) :
  in_range v = true -> setitem (a :: rest) 0 v = Ok (v :: rest).
Proof. exact (setitem_at [] a rest v). Qed.

Lemma setitem_1 (a b : Z) (rest : list Z) (v : Z) :
  in_range v = true -> setitem (a :: b :: rest) 1 v = Ok (a :: v :: rest).
Proof. exact (setitem_at [a] b rest v). Qed.

Lemma setitem_2 (a b c : Z) (rest : list Z) (v : Z) :
  in_range v = true ->
  setitem (a :: b :: c :: rest) 2 v = Ok (a :: b :: v :: rest).
Proof. exact (setitem_at [a; b] c rest v). Qed.

Lemma setitem_3 (a b c d : Z) (rest : list Z) (v : Z) :
  in_range v = true ->
  setitem (a :: b :: c :: d :: rest) 3 v = Ok (a :: b :: c :: v :: rest).
Proof. exact (setitem_at [a; b; c] d rest v). Qed.

Lemma setitem_4 (a b c d e : Z) (rest : list Z) (v : Z) :
  in_range v = true ->
  setitem (a :: b :: c :: d :: e :: rest) 4 v
  = Ok (a :: b :: c :: d :: v :: rest).
Proof. exact (setitem_at [a; b; c; d] e rest v). Qed.

Lemma getitem_3 (a b c d : Z) (rest : list Z) :
  getitem (a :: b :: c :: d :: rest) 3 = Ok d.
Proof. exact (getitem_at [a; b; c] d rest). Qed.

(** The payload store [pkt_bytes[5:packet_len - 1] = data]. *)
Lemma store_payload (a b c d e : Z) (data : list Z) :
  forallb in_range data = true ->
  setslice (a :: b :: c :: d :: e :: zeros (S (length data))) (Some 5)
           (Some (Z.of_nat (6 + length data) - 1)) data
  = Ok (a :: b :: c :: d :: e :: data ++ [0]).
Proof.
  intros Hd.
  pose proof (setslice_at [a; b; c; d; e] (zeros (length data)) [0] data Hd)
    as E.
  unfold zeros in *. rewrite repeat_length in E.
  replace (Z.of_nat (6 + length data) - 1)
    with (Z.of_nat (5 + length data)) by lia.
  change (repeat 0 (S (length data))) with (0 :: repeat 0 (length data)).
  rewrite repeat_cons. exact E.
Qed.

(** The checksum store [pkt_bytes[-1] = ~sum(pkt_bytes[2:-1]) & 0xff]. *)
Lemma store_checksum (a b : Z) (body : list Z) (x : Z) :
  setitem (a :: b :: body ++ [x]) (-1)
          (Z.land (Z.lnot (zsum (getslice (a :: b :: body ++ [x])
                                          (Some 2) (Some (-1))))) 255)
  = Ok (a :: b :: body ++ [FrameCodec.checksum body]).
Proof.
  replace (getslice (a :: b :: body ++ [x]) (Some 2) (Some (-1)))
    with body by (symmetry; exact (getslice_inner [a; b] body x)).
  rewrite lnot_land_255.
  apply (setitem_last (a :: b :: body)), checksum_in_range.
Qed.

(** The frame handed to the transport is the encoded frame of the
    specification; an input that does not fit the byte fields raises
    [ValueError] before anything is written or logged. *)
Lemma fill_and_write_packet_eq (self : Bus) (dev_id cmd : Z)
      (data : option (list Z)) (w : World) :
  let payload := match data with Some d => d | None => [] end in
  fill_and_write_packet respond self dev_id cmd data w =
  if FrameCodec.encodable dev_id cmd payload
  then (when (truthy (Z.land (show self) SHOW_PACKETS))
             (log (LogDumpW (FrameCodec.encode dev_id cmd payload))) ;;;
        write_packet respond (FrameCodec.encode dev_id cmd payload)) w
  else (Raise ValueError, w).
Proof.
  cbv zeta. unfold fill_and_write_packet, FrameCodec.encodable.
  unfold bind at 1 2 3 4 5. unfold lift at 1 2 3 4 5.
  change (zeros (6 + ?n)) with (0 :: 0 :: 0 :: 0 :: 0 :: zeros (S n)).
  rewrite setitem_0, setitem_1 by reflexivity.
  destruct (in_range dev_id) eqn:Hdev;
    [rewrite setitem_2 by exact Hdev
    | rewrite setitem_bad_value by exact Hdev; reflexivity].
  rewrite setitem_3 by reflexivity.
  destruct (in_range cmd) eqn:Hcmd;
    [rewrite setitem_4 by exact Hcmd
    | rewrite setitem_bad_value by exact Hcmd; reflexivity].
  cbn [andb].
  destruct data as [d|].
  - unfold bind at 1 2 3. unfold lift at 1 2.
    rewrite getitem_3.
    destruct (in_range (2 + Z.of_nat (length d))) eqn:Hlen;
      [rewrite setitem_3 by exact Hlen
      | rewrite setitem_bad_value by exact Hlen; reflexivity].
    unfold lift at 1. cbn [andb].
    destruct (forallb in_range d) eqn:Hd;
      [rewrite store_payload by exact Hd
      | rewrite setslice_bad_value by exact Hd; reflexivity].
    unfold bind at 1. unfold lift at 1.
    change (255 :: 255 :: dev_id :: ?l :: cmd :: d ++ [0])
      with (255 :: 255 :: (dev_id :: l :: cmd :: d) ++ [0]).
    rewrite store_checksum. reflexivity.
  - unfold bind at 1. unfold ret at 1.
    unfold bind at 1. unfold lift at 1.
    change (255 :: 255 :: dev_id :: 2 :: cmd :: zeros (S 0))
      with (255 :: 255 :: [dev_id; 2; cmd] ++ [0]).
    rewrite store_checksum. reflexivity.
Qed.


Lemma encode_checksum_ok (dev_id cmd : Z) (payload : list Z) :
  checksum_ok (FrameCodec.encode dev_id cmd payload).
Proof.
  unfold checksum_ok, FrameCodec.encode.
  set (body := FrameCodec.body dev_id cmd payload). split.
  - replace (getslice ([255; 255] ++ body ++ [FrameCodec.checksum body])
                      (Some 2) None)
      with (body ++ [FrameCodec.checksum body])
      by (symmetry; exact (getslice_from [255; 255] _)).
    apply checksum_total.
  - replace (getslice ([255; 255] ++ body ++ [FrameCodec.checksum body])
                      (Some 2) (Some (-1)))
      with body by (symmetry; exact (getslice_inner [255; 255] body _)).
    rewrite app_assoc. apply getitem_last.
Qed.

(** What [fill_and_write_packet] leaves on the trace. *)
Lemma fill_and_write_packet_since (self : Bus) (dev_id cmd : Z)
      (data : option (list Z)) (w : World) :
  let payload := match data with Some d => d | None => [] end in
  let out := fill_and_write_packet respond self dev_id cmd data w in
  if FrameCodec.encodable dev_id cmd payload
  then fst out = Ok tt
       /\ trace (snd out)
          = trace w ++ [EvWrite (FrameCodec.encode dev_id cmd payload)]
  else fst out = Raise ValueError /\ trace (snd out) = trace w.
Proof.
  cbv zeta. rewrite fill_and_write_packet_eq.
  destruct (FrameCodec.encodable _ _ _); [|split; reflexivity].
  unfold bind, when. destruct (truthy _); split; reflexivity.
Qed.

(** C1.  Checksum invariant: in every frame that
    [fill_and_write_packet] hands to the transport, for any device id,
    command and data, the bytes from the device id through the checksum
    sum to 255 modulo 256, and the checksum byte is 255 minus the sum,
    modulo 256, of the bytes from the device id through the last
    payload byte.  The frames written are given too: the encoded frame
    when the input fits the byte fields, none otherwise. *)
Theorem checksum_invariant (self : Bus) (dev_id cmd : Z)
        (data : option (list Z)) (w : World) :
  let payload := match data with Some d => d | None => [] end in
  let w' := snd (fill_and_write_packet respond self dev_id cmd data w) in
  writes (since w w')
  = (if FrameCodec.encodable dev_id cmd payload
     then [FrameCodec.encode dev_id cmd payload] else [])
  /\ Forall checksum_ok (writes (since w w')).
Proof.
  cbv zeta.
  pose proof (fill_and_write_packet_since self dev_id cmd data w) as H.
  cbv zeta in H.
  destruct (FrameCodec.encodable _ _ _); destruct H as [_ H].
  - rewrite (since_app _ _ _ H). split; [reflexivity|].
    constructor; [apply encode_checksum_ok | constructor].
  - rewrite (since_same _ _ H). split; [reflexivity | constructor].
Qed.

(** C2.  Wire layout: the frame that [fill_and_write_packet] writes is
    [0xFF 0xFF <device_id> <length> <command> <payload...> <checksum>]
    with [length = 2 + len(payload)], the payload being [data], or
    empty when [data] is [None]; it is written exactly when the device
    id, the command, the length and the payload bytes fit a byte, and
    otherwise [ValueError] is raised and nothing is written. *)
Theorem frame_layout (self : Bus) (dev_id cmd : Z)
        (data : option (list Z)) (w : World) :
  let payload := match data with Some d => d | None => [] end in
  let out := fill_and_write_packet respond self dev_id cmd data w in
  if FrameCodec.encodable dev_id cmd payload
  then fst out = Ok tt
       /\ exists checksum,
            trace (snd out)
            = trace w
              ++ [EvWrite ([255; 255; dev_id;
                            2 + Z.of_nat (length payload); cmd]
                           ++ payload ++ [checksum])]
  else fst out = Raise ValueError /\ trace (snd out) = trace w.
Proof.
  cbv zeta.
  pose proof (fill_and_write_packet_since self dev_id cmd data w) as H.
  cbv zeta in H.
  destruct (FrameCodec.encodable _ _ _); [|exact H].
  destruct H as [Hr Ht]. split; [exact Hr|].
  eexists. rewrite Ht. reflexivity.
Qed.

End Frames.

(** ** The status read loop *)

Section ReadStatus.

Context {pk : PacketModule}.

(** The loop equation of [while True:] in terms of the transport's
    [read_byte]: one read, then time out, go round again, return the
    packet or raise. *)
Lemma read_status_from_unfold (pkt : Packet) (received_bytes : list Z)
      (w : World) :
  read_status_from pkt received_bytes w =
  (byte <- read_byte ;;
   match byte with
   | None =>
       log LogTimeout ;;; log LogNoData ;;;
       raise (BusError ErrorCode_TIMEOUT)
   | Some byte =>
       let received_bytes := received_bytes ++ [byte] in
       let '(error_code, pkt) := process_byte pkt byte in
       if error_code =? ErrorCode_NOT_DONE then
         read_status_from pkt received_bytes
       else if error_code =? ErrorCode_NONE then
         log (LogStatusNone (Packet_dev_id pkt)) ;;;
         log_received received_bytes ;;;
         ret pkt
       else
         (if error_code =? ErrorCode_OVERHEATING then
            log (LogOverHeating (Packet_dev_id pkt))
          else if error_code =? ErrorCode_CHECKSUM then
            log LogChecksum
          else ret tt) ;;;
         log_received received_bytes ;;;
         raise (BusError error_code)
   end) w.
Proof.
  unfold read_status_from, read_byte. unfold bind at 1.
  destruct w as [pending tr dg]. cbn [rx trace diag].
  destruct pending as [|[byte|] rest]; cbn [read_status_loop tl rx trace diag];
    try reflexivity.
  destruct (process_byte pkt byte) as [error_code pkt'].
  destruct (error_code =? ErrorCode_NOT_DONE); [reflexivity|].
  destruct (error_code =? ErrorCode_NONE); reflexivity.
Qed.

(** A status read only reads: it appends the outcomes of its
    [read_byte] calls to the trace, at least one, and ends with a packet
    or a [BusError]. *)
Lemma read_status_loop_reads (pending : list (option Z)) :
  forall (pkt : Packet) (received_bytes : list Z) (w : World),
  exists rs,
    rs <> []
    /\ trace (snd (read_status_loop pending pkt received_bytes w))
       = trace w ++ map EvRead rs
    /\ match fst (read_status_loop pending pkt received_bytes w) with
       | Ok _ | Raise (BusError _) => True
       | Raise _ => False
       end.
Proof.
  induction pending as [|[byte|] rest IH]; intros pkt received_bytes w.
  - exists [None]. split; [discriminate|]. split; [reflexivity|exact I].
  - cbn [read_status_loop].
    destruct (process_byte pkt byte) as [error_code pkt'].
    destruct (error_code =? ErrorCode_NOT_DONE).
    + destruct (IH pkt' (received_bytes ++ [byte])
                   (mkWorld rest (trace w ++ [EvRead (Some byte)]) (diag w)))
        as (rs & _ & Ht & Hr).
      exists (Some byte :: rs). split; [discriminate|]. split; [|exact Hr].
      rewrite Ht. cbn [trace map]. now rewrite <- app_assoc.
    + exists [Some byte]. split; [discriminate|].
      destruct (error_code =? ErrorCode_NONE); [split; [reflexivity|exact I]|].
      destruct (error_code =? ErrorCode_OVERHEATING);
        [split; [reflexivity|exact I]|].
      destruct (error_code =? ErrorCode_CHECKSUM);
        split; (reflexivity || exact I).
  - exists [None]. split; [discriminate|]. split; [reflexivity|exact I].
Qed.

Lemma read_status_packet_reads (self : Bus) (w : World) :
  exists rs,
    rs <> []
    /\ trace (snd (read_status_packet self w)) = trace w ++ map EvRead rs
    /\ match fst (read_status_packet self w) with
       | Ok _ | Raise (BusError _) => True
       | Raise _ => False
       end.
Proof. apply read_status_loop_reads. Qed.

(** When the line delivers no byte the read fails with TIMEOUT. *)
Lemma read_status_packet_silent (self : Bus) (w : World) :
  hd None (rx w) = None ->
  fst (read_status_packet self w) = Raise (BusError ErrorCode_TIMEOUT).
Proof.
  unfold read_status_packet, read_status_from.
  destruct (rx w) as [|[byte|] rest]; cbn [hd]; intros H;
    [reflexivity | discriminate | reflexivity].
Qed.

End ReadStatus.

(** ** The command layer *)

Create HintDb quiet.

Section Commands.

Context {pk : PacketModule}.
Variable respond : list event -> list Z -> list (option Z).

Import bytearray.


Lemma quiet_ret : quiet (ret tt).
Proof. intros [r t d]. now exists d. Qed.

Lemma quiet_log (l : log_line) : quiet (log l).
Proof. intros w. now exists (diag w ++ [l]). Qed.

Lemma quiet_if (b : bool) (c1 c2 : M unit) :
  quiet c1 -> quiet c2 -> quiet (if b then c1 else c2).
Proof. now destruct b. Qed.

Lemma quiet_when (b : bool) (c : M unit) : quiet c -> quiet (when b c).
Proof. intros H. apply quiet_if; [exact H | apply quiet_ret]. Qed.

Lemma quiet_bind {A} (c : M unit) (k : M A) (w : World) :
  quiet c -> exists dg, (c ;;; k) w = k (mkWorld (rx w) (trace w) dg).
Proof.
  intros H. destruct (H w) as [dg E]. exists dg. unfold bind. now rewrite E.
Qed.

Lemma bind_ext {A B} (c : M A) (k1 k2 : A -> M B) (w : World) :
  (forall a w', k1 a w' = k2 a w') -> bind c k1 w = bind c k2 w.
Proof.
  intros H. unfold bind. destruct (c w) as [[a|e] w']; [apply H|reflexivity].
Qed.

#[local] Hint Resolve quiet_ret quiet_log quiet_if quiet_when : quiet.


Lemma sent_after_quiet (c : M unit) (self : Bus) (dev_id cmd : Z)
      (data : option (list Z)) (w : World) :
  quiet c ->
  let payload := match data with Some d => d | None => [] end in
  sent (FrameCodec.encodable dev_id cmd payload)
       (FrameCodec.encode dev_id cmd payload) w
       ((c ;;; fill_and_write_packet respond self dev_id cmd data) w).
Proof.
  intros Hc. cbv zeta.
  destruct (quiet_bind c (fill_and_write_packet respond self dev_id cmd data)
                       w Hc) as [dg ->].
  exact (fill_and_write_packet_since respond self dev_id cmd data _).
Qed.

Lemma send_ping_sent (self : Bus) (dev_id : Z) (w : World) :
  sent (FrameCodec.encodable dev_id Command_PING [])
       (FrameCodec.encode dev_id Command_PING []) w
       (send_ping respond self dev_id w).
Proof. apply (sent_after_quiet _ self dev_id _ None); auto with quiet. Qed.

Lemma send_reset_sent (self : Bus) (dev_id : Z) (w : World) :
  sent (FrameCodec.encodable dev_id Command_RESET [])
       (FrameCodec.encode dev_id Command_RESET []) w
       (send_reset respond self dev_id w).
Proof. apply (sent_after_quiet _ self dev_id _ None); auto with quiet. Qed.

Lemma action_sent (self : Bus) (w : World) :
  sent (FrameCodec.encodable Id_BROADCAST Command_ACTION [])
       (FrameCodec.encode Id_BROADCAST Command_ACTION []) w
       (action respond self w).
Proof. apply (sent_after_quiet _ self _ _ None); auto with quiet. Qed.

(** [send_write] builds the payload [[offset] + data]; an empty [data]
    makes the store [pkt_data[0] = offset] fail. *)
Lemma send_write_eq (self : Bus) (dev_id offset : Z) (data : list Z)
      (deferred : bool) (w : World) :
  send_write respond self dev_id offset data deferred w =
  (when (shows self SHOW_COMMANDS)
        (if dev_id =? Id_BROADCAST
         then log (LogBroadcastingWrite deferred offset (length data))
         else log (LogSendingWrite deferred dev_id offset (length data))) ;;;
   if negb (in_range offset) then raise ValueError
   else match data with
        | [] => raise IndexError
        | _ :: _ =>
            if forallb in_range data
            then fill_and_write_packet respond self dev_id
                   (if deferred then Command_REG_WRITE else Command_WRITE)
                   (Some (offset :: data))
            else raise ValueError
        end) w.
Proof.
  unfold send_write. apply bind_ext. intros _ w1.
  unfold bind at 1. unfold lift at 1.
  destruct (in_range offset) eqn:Hoff;
    [|rewrite setitem_bad_value by exact Hoff; reflexivity].
  cbn [negb].
  destruct data as [|x data].
  - unfold setitem. rewrite Hoff, index_empty. reflexivity.
  - change (zeros (length (x :: data))) with (0 :: zeros (length data)).
    rewrite setitem_0 by exact Hoff.
    unfold bind at 1. unfold lift at 1.
    destruct (forallb in_range (x :: data)) eqn:Hd;
      [|rewrite setslice_bad_value by exact Hd; reflexivity].
    replace (setslice (offset :: zeros (length data)) (Some 1) None (x :: data))
      with (Ok (offset :: x :: data))
      by (symmetry; exact (setslice_tail [offset] _ (x :: data) Hd)).
    reflexivity.
Qed.


Lemma send_write_sent (self : Bus) (dev_id offset : Z) (data : list Z)
      (deferred : bool) (w : World) :
  let cmd := if deferred then Command_REG_WRITE else Command_WRITE in
  let out := send_write respond self dev_id offset data deferred w in
  if writable dev_id cmd offset data
  then fst out = Ok tt
       /\ trace (snd out)
          = trace w ++ [EvWrite (FrameCodec.encode dev_id cmd (offset :: data))]
  else (fst out = Raise ValueError \/ fst out = Raise IndexError)
       /\ trace (snd out) = trace w.
Proof.
  cbv zeta. rewrite send_write_eq.
  match goal with
  | |- context [(?c ;;; ?k) w] =>
      assert (Hq : quiet c) by auto with quiet;
      destruct (quiet_bind c k w Hq) as [dg ->]
  end.
  set (w1 := mkWorld (rx w) (trace w) dg).
  set (cmd := if deferred then Command_REG_WRITE else Command_WRITE).
  pose proof (fill_and_write_packet_since respond self dev_id cmd
                (Some (offset :: data)) w1) as H.
  cbv zeta in H. unfold writable, FrameCodec.encodable in *.
  cbn [forallb] in *.
  destruct (in_range offset); cbn [negb andb].
  - destruct data as [|x data].
    + cbn. split; [now right|reflexivity].
    + change (negb (length (x :: data) =? 0)%nat) with true. cbn [andb].
      destruct (forallb in_range (x :: data)).
      * destruct (in_range dev_id && in_range cmd
                  && in_range (2 + Z.of_nat (length (offset :: x :: data))));
          cbn [andb] in *; [exact H|].
        destruct H as [H1 H2]. split; [now left | exact H2].
      * rewrite !andb_false_r. split; [now left | reflexivity].
  - rewrite !andb_false_r. split; [now left | reflexivity].
Qed.

End Commands.

(** ** Operations: write, ping, and the broadcast short cut *)

Section Operations.

Context {pk : PacketModule}.
Variable respond : list event -> list Z -> list (option Z).

Import bytearray.

Lemma bind_ok {A B} (c : M A) (k : A -> M B) (w : World) (a : A) :
  fst (c w) = Ok a -> bind c k w = k a (snd (c w)).
Proof. unfold bind. destruct (c w) as [[a'|e] w']; cbn; congruence. Qed.

Lemma bind_raise {A B} (c : M A) (k : A -> M B) (w : World) (e : exn) :
  fst (c w) = Raise e -> bind c k w = (Raise e, snd (c w)).
Proof. unfold bind. destruct (c w) as [[a'|e'] w']; cbn; congruence. Qed.

(** After its frame, an addressed operation only reads; a broadcast one
    stops. *)
Lemma response_reads (self : Bus) (dev_id : Z) (w : World) :
  let out :=
    (if dev_id =? Id_BROADCAST then ret ErrorCode_NONE
     else pkt <- read_status_packet self ;; ret (Packet_error_code pkt)) w in
  exists rs, trace (snd out) = trace w ++ map EvRead rs.
Proof.
  cbv zeta. destruct (dev_id =? Id_BROADCAST).
  - exists []. cbn. now rewrite app_nil_r.
  - destruct (read_status_packet_reads self w) as (rs & _ & Ht & _).
    exists rs. unfold bind.
    destruct (read_status_packet self w) as [[pkt|e] w1]; exact Ht.
Qed.

(** C3.  The specification's worked example: with the WRITE command
    code 0x03 of that example, a non-deferred write to device 1 at
    offset 0x18 of the data [0x01, 0x00] hands exactly the frame
    FF FF 01 05 03 18 01 00 DD to [write_packet], both in [send_write]
    and in the whole [write] operation, whatever the device answers:
    the payload is the offset followed by the data, and the checksum
    is 0xDD. *)
Theorem write_example (self : Bus) (w : World) :
  Command_WRITE = 3 ->
  fst (send_write respond self 1 24 [1; 0] false w) = Ok tt
  /\ writes (since w (snd (send_write respond self 1 24 [1; 0] false w)))
     = [[255; 255; 1; 5; 3; 24; 1; 0; 221]]
  /\ writes (since w (snd (write respond self 1 24 [1; 0] false w)))
     = [[255; 255; 1; 5; 3; 24; 1; 0; 221]].
Proof.
  intros HW.
  pose proof (send_write_sent respond self 1 24 [1; 0] false w) as H.
  cbv zeta in H. rewrite HW in H.
  change (writable 1 3 24 [1; 0]) with true in H.
  change (FrameCodec.encode 1 3 [24; 1; 0])
    with [255; 255; 1; 5; 3; 24; 1; 0; 221] in H.
  destruct H as [Hr Ht]. split; [exact Hr|]. split.
  - now rewrite (since_app _ _ _ Ht).
  - unfold write. unfold bind at 1.
    destruct (send_write respond self 1 24 [1; 0] false w) as [[[]|e] w1];
      cbn [fst snd] in Hr, Ht; [|discriminate Hr].
    destruct (response_reads self 1 w1) as [rs Hrs]. cbv zeta in Hrs.
    rewrite Ht, <- app_assoc in Hrs.
    rewrite (since_app _ _ _ Hrs), writes_app, writes_reads. reflexivity.
Qed.

(** [send_ping] raises nothing but [ValueError]. *)
Lemma send_ping_outcome (self : Bus) (dev_id : Z) (w : World) :
  fst (send_ping respond self dev_id w) = Ok tt
  \/ fst (send_ping respond self dev_id w) = Raise ValueError.
Proof.
  pose proof (send_ping_sent respond self dev_id w) as H. unfold sent in H.
  destruct (FrameCodec.encodable _ _ _); destruct H as [H _]; auto.
Qed.

(** [ping] in terms of its two steps. *)
Lemma ping_eq (self : Bus) (dev_id : Z) (w : World) :
  ping respond self dev_id w =
  match send_ping respond self dev_id w with
  | (Raise e, w1) => (Raise e, w1)
  | (Ok _, w1) =>
      match read_status_packet self w1 with
      | (Ok _, w2) => (Ok true, w2)
      | (Raise (BusError error_code), w2) =>
          if error_code =? ErrorCode_TIMEOUT then (Ok false, w2)
          else (Raise (BusError error_code), w2)
      | (Raise e, w2) => (Raise e, w2)
      end
  end.
Proof.
  unfold ping. unfold bind at 1.
  destruct (send_ping respond self dev_id w) as [[[]|e] w1]; [|reflexivity].
  unfold try_except_BusError, bind.
  destruct (read_status_packet self w1) as [[pkt|[| |c]] w2];
    try reflexivity.
  destruct (c =? ErrorCode_TIMEOUT); reflexivity.
Qed.

Ltac split_cases :=
  repeat match goal with
         | |- _ /\ _ => split
         | |- _ <-> _ => split
         | |- _ <> _ => intro
         | |- forall _, _ => intro
         | H : exists _, _ |- _ => destruct H
         | H : _ /\ _ |- _ => destruct H
         | H : (_, _) = (_, _) |- _ => inversion H; clear H; subst
         end;
  try congruence; eauto.

(** C4.  For every device id, [ping] returns [False] exactly when the
    status read that follows its frame fails with TIMEOUT, returns
    [True] exactly when the status read returns a packet, and raises a
    [BusError] with a code other than TIMEOUT exactly when the status
    read raised it; it never raises [BusError(TIMEOUT)], and it returns
    [False] when the line delivers no byte after the frame. *)
Theorem ping_outcomes (self : Bus) (dev_id : Z) (w w' : World) :
  (ping respond self dev_id w = (Ok false, w') <->
   exists w1,
     send_ping respond self dev_id w = (Ok tt, w1)
     /\ read_status_packet self w1
        = (Raise (BusError ErrorCode_TIMEOUT), w'))
  /\ (ping respond self dev_id w = (Ok true, w') <->
      exists w1 pkt,
        send_ping respond self dev_id w = (Ok tt, w1)
        /\ read_status_packet self w1 = (Ok pkt, w'))
  /\ (forall error_code, error_code <> ErrorCode_TIMEOUT ->
      (ping respond self dev_id w = (Raise (BusError error_code), w') <->
       exists w1,
         send_ping respond self dev_id w = (Ok tt, w1)
         /\ read_status_packet self w1 = (Raise (BusError error_code), w')))
  /\ ping respond self dev_id w <> (Raise (BusError ErrorCode_TIMEOUT), w')
  /\ (forall w1,
        send_ping respond self dev_id w = (Ok tt, w1) ->
        hd None (rx w1) = None ->
        fst (ping respond self dev_id w) = Ok false).
Proof.
  rewrite ping_eq.
  pose proof (send_ping_outcome self dev_id w) as Hs.
  destruct (send_ping respond self dev_id w) as [[[]|e] w1]; cbn [fst] in Hs.
  2: { assert (e = ValueError) by (destruct Hs; congruence). subst e.
       split_cases. }
  clear Hs.
  pose proof (read_status_packet_reads self w1) as (_ & _ & _ & Hr).
  pose proof (read_status_packet_silent self w1) as Hsil.
  destruct (read_status_packet self w1) as [[pkt|e] w2] eqn:E;
    cbn [fst] in *.
  - split_cases. specialize (Hsil ltac:(assumption)). discriminate Hsil.
  - destruct e as [| |c]; try contradiction.
    destruct (Z.eqb_spec c ErrorCode_TIMEOUT) as [->|Hne]; split_cases.
    specialize (Hsil ltac:(assumption)). congruence.
Qed.

(** *** Broadcast operations *)

Lemma write_broadcast_outcome (self : Bus) (offset : Z) (data : list Z)
      (deferred : bool) (w : World) :
  let cmd := if deferred then Command_REG_WRITE else Command_WRITE in
  let out := write respond self Id_BROADCAST offset data deferred w in
  if writable Id_BROADCAST cmd offset data
  then fst out = Ok ErrorCode_NONE
       /\ trace (snd out)
          = trace w
            ++ [EvWrite (FrameCodec.encode Id_BROADCAST cmd (offset :: data))]
  else (fst out = Raise ValueError \/ fst out = Raise IndexError)
       /\ trace (snd out) = trace w.
Proof.
  cbv zeta.
  pose proof (send_write_sent respond self Id_BROADCAST offset data
                deferred w) as H. cbv zeta in H.
  unfold write. rewrite Z.eqb_refl. unfold bind.
  destruct (send_write respond self Id_BROADCAST offset data deferred w)
    as [[[]|e] w1]; cbn [fst snd] in *;
    destruct (writable _ _ _ _); destruct H as [H1 H2].
  - split; [reflexivity | exact H2].
  - destruct H1; discriminate.
  - discriminate H1.
  - split; [|exact H2]. destruct H1 as [H1|H1]; inversion H1; auto.
Qed.

Lemma reset_broadcast_outcome (self : Bus) (w : World) :
  let out := reset respond self Id_BROADCAST w in
  if FrameCodec.encodable Id_BROADCAST Command_RESET []
  then fst out = Ok ErrorCode_NONE
       /\ trace (snd out)
          = trace w
            ++ [EvWrite (FrameCodec.encode Id_BROADCAST Command_RESET [])]
  else fst out = Raise ValueError /\ trace (snd out) = trace w.
Proof.
  cbv zeta.
  pose proof (send_reset_sent respond self Id_BROADCAST w) as H.
  unfold sent in H. unfold reset. rewrite Z.eqb_refl. unfold bind.
  destruct (send_reset respond self Id_BROADCAST w) as [[[]|e] w1];
    cbn [fst snd] in *;
    destruct (FrameCodec.encodable _ _ _); destruct H as [H1 H2].
  - split; [reflexivity | exact H2].
  - discriminate H1.
  - discriminate H1.
  - split; [|exact H2]. inversion H1. reflexivity.
Qed.

Lemma writable_intro (dev_id cmd offset : Z) (data : list Z) :
  in_range dev_id = true -> in_range cmd = true ->
  in_range offset = true -> forallb in_range data = true ->
  (1 <= length data <= 252)%nat ->
  writable dev_id cmd offset data = true.
Proof.
  intros Hd Hc Ho Hdata Hlen. unfold writable, FrameCodec.encodable.
  cbn [forallb]. rewrite Hd, Hc, Ho, Hdata. cbn [andb].
  rewrite andb_true_r. apply andb_true_intro. split.
  - apply negb_true_iff, Nat.eqb_neq. lia.
  - apply in_range_true. cbn [length]. lia.
Qed.

Lemma encodable_empty (dev_id cmd : Z) :
  in_range dev_id = true -> in_range cmd = true ->
  FrameCodec.encodable dev_id cmd [] = true.
Proof.
  intros Hd Hc. unfold FrameCodec.encodable. now rewrite Hd, Hc.
Qed.

(** C5 (as amended).  Broadcast [write], broadcast [reset] and [action]
    never call the transport's read path and never raise a [BusError],
    for every offset and data.  When the broadcast id, the command and
    the offset are bytes and the data is between 1 and 252 bytes, the
    broadcast [write] hands exactly one frame to the transport and
    returns NONE; when the broadcast id and the command are bytes, so
    does broadcast [reset], and [action] writes its one frame and
    returns nothing. *)
Theorem broadcast_no_response (self : Bus) (offset : Z) (data : list Z)
        (deferred : bool) (w : World) :
  let cmd := if deferred then Command_REG_WRITE else Command_WRITE in
  let out_write := write respond self Id_BROADCAST offset data deferred w in
  let out_reset := reset respond self Id_BROADCAST w in
  let out_action := action respond self w in
  (reads (since w (snd out_write)) = []
   /\ reads (since w (snd out_reset)) = []
   /\ reads (since w (snd out_action)) = [])
  /\ (forall error_code,
        fst out_write <> Raise (BusError error_code)
        /\ fst out_reset <> Raise (BusError error_code)
        /\ fst out_action <> Raise (BusError error_code))
  /\ (in_range Id_BROADCAST = true -> in_range cmd = true ->
      in_range offset = true -> forallb in_range data = true ->
      (1 <= length data <= 252)%nat ->
      fst out_write = Ok ErrorCode_NONE
      /\ since w (snd out_write)
         = [EvWrite (FrameCodec.encode Id_BROADCAST cmd (offset :: data))])
  /\ (in_range Id_BROADCAST = true -> in_range Command_RESET = true ->
      fst out_reset = Ok ErrorCode_NONE
      /\ since w (snd out_reset)
         = [EvWrite (FrameCodec.encode Id_BROADCAST Command_RESET [])])
  /\ (in_range Id_BROADCAST = true -> in_range Command_ACTION = true ->
      fst out_action = Ok tt
      /\ since w (snd out_action)
         = [EvWrite (FrameCodec.encode Id_BROADCAST Command_ACTION [])]).
Proof.
  cbv zeta.
  pose proof (write_broadcast_outcome self offset data deferred w) as Hw.
  pose proof (reset_broadcast_outcome self w) as Hr.
  pose proof (action_sent respond self w) as Ha.
  cbv zeta in Hw, Hr. unfold sent in Ha.
  set (cmd := if deferred then Command_REG_WRITE else Command_WRITE) in *.
  assert (Hw' : writable Id_BROADCAST cmd offset data = true ->
                fst (write respond self Id_BROADCAST offset data deferred w)
                = Ok ErrorCode_NONE
                /\ since w (snd (write respond self Id_BROADCAST offset data
                                   deferred w))
                   = [EvWrite (FrameCodec.encode Id_BROADCAST cmd
                                 (offset :: data))]).
  { intros E. rewrite E in Hw. destruct Hw as [H1 H2].
    split; [exact H1 | exact (since_app _ _ _ H2)]. }
  assert (Hr' : FrameCodec.encodable Id_BROADCAST Command_RESET [] = true ->
                fst (reset respond self Id_BROADCAST w) = Ok ErrorCode_NONE
                /\ since w (snd (reset respond self Id_BROADCAST w))
                   = [EvWrite (FrameCodec.encode Id_BROADCAST
                                 Command_RESET [])]).
  { intros E. rewrite E in Hr. destruct Hr as [H1 H2].
    split; [exact H1 | exact (since_app _ _ _ H2)]. }
  assert (Ha' : FrameCodec.encodable Id_BROADCAST Command_ACTION [] = true ->
                fst (action respond self w) = Ok tt
                /\ since w (snd (action respond self w))
                   = [EvWrite (FrameCodec.encode Id_BROADCAST
                                 Command_ACTION [])]).
  { intros E. rewrite E in Ha. destruct Ha as [H1 H2].
    split; [exact H1 | exact (since_app _ _ _ H2)]. }
  split; [|split; [|split; [|split]]].
  - destruct (writable _ _ _ _), (FrameCodec.encodable Id_BROADCAST
                                    Command_RESET []),
      (FrameCodec.encodable Id_BROADCAST Command_ACTION []);
      destruct Hw as [_ Hw], Hr as [_ Hr], Ha as [_ Ha];
      repeat split;
      first [ rewrite (since_app _ _ _ Hw) | rewrite (since_same _ _ Hw)
            | rewrite (since_app _ _ _ Hr) | rewrite (since_same _ _ Hr)
            | rewrite (since_app _ _ _ Ha) | rewrite (since_same _ _ Ha) ];
      reflexivity.
  - intros error_code.
    destruct (writable _ _ _ _), (FrameCodec.encodable Id_BROADCAST
                                    Command_RESET []),
      (FrameCodec.encodable Id_BROADCAST Command_ACTION []);
      destruct Hw as [Hw _], Hr as [Hr _], Ha as [Ha _];
      repeat split; try congruence; destruct Hw; congruence.
  - intros. apply Hw', writable_intro; assumption.
  - intros. apply Hr', encodable_empty; assumption.
  - intros. apply Ha', encodable_empty; assumption.
Qed.

End Operations.

(** ** Scanning *)

Section Scan.

Context {pk : PacketModule}.
Variable respond : list event -> list Z -> list (option Z).




Lemma range_In (lo hi i : Z) : In i (range lo hi) <-> lo <= i < hi.
Proof.
  unfold range. rewrite in_map_iff. split.
  - intros (n & <- & Hn). apply in_seq in Hn. lia.
  - intros H. exists (Z.to_nat (i - lo)). split; [lia|].
    apply in_seq. lia.
Qed.


Lemma scan_range (start_id num_ids : Z) :
  (let end_id := start_id + num_ids - 1 in
   let end_id :=
     if end_id >=? Id_BROADCAST then Id_BROADCAST - 1 else end_id in
   range start_id (end_id + 1))
  = ids_to_scan start_id num_ids.
Proof.
  cbv zeta. unfold ids_to_scan. f_equal.
  destruct (Z.geb_spec (start_id + num_ids - 1) Id_BROADCAST); lia.
Qed.

Lemma scan_eq (self : Bus) (start_id num_ids : Z)
      (dev_found dev_missing : callback) :
  scan respond self start_id num_ids dev_found dev_missing
  = for_in (ids_to_scan start_id num_ids)
           (scan_body respond self dev_found dev_missing) false.
Proof. unfold scan. cbv zeta. rewrite scan_range. reflexivity. Qed.

Lemma scan_body_eq (self : Bus) (dev_found dev_missing : callback)
      (dev_id : Z) (acc : bool) (w : World) :
  scan_body respond self dev_found dev_missing dev_id acc w =
  match ping respond self dev_id w with
  | (Ok found, w1) =>
      match call (if found then dev_found else dev_missing) self dev_id w1
      with
      | (Ok _, w2) => (Ok (found || acc), w2)
      | (Raise e, w2) => (Raise e, w2)
      end
  | (Raise e, w1) => (Raise e, w1)
  end.
Proof.
  unfold scan_body, bind.
  destruct (ping respond self dev_id w) as [[[|]|e] w1]; try reflexivity;
    destruct (call _ self dev_id w1) as [[[]|e] w2]; reflexivity.
Qed.

Lemma scan_run_nil_inv (self : Bus) (dev_found dev_missing : callback)
      (w w' : World) (founds : list bool) :
  scan_run respond self dev_found dev_missing [] w founds w' ->
  founds = [] /\ w' = w.
Proof. intros H. inversion H; subst. split; reflexivity. Qed.

Lemma scan_run_cons_inv (self : Bus) (dev_found dev_missing : callback)
      (dev_id : Z) (ids : list Z) (w w3 : World) (fs : list bool) :
  scan_run respond self dev_found dev_missing (dev_id :: ids) w fs w3 ->
  exists found founds w1 w2,
    fs = found :: founds
    /\ ping respond self dev_id w = (Ok found, w1)
    /\ call (if found then dev_found else dev_missing) self dev_id w1
       = (Ok tt, w2)
    /\ scan_run respond self dev_found dev_missing ids w2 founds w3.
Proof. intros H. inversion H; subst. eauto 10. Qed.

(** The loop returns exactly on the runs, with the disjunction of the
    outcomes. *)
Lemma scan_loop_run (self : Bus) (dev_found dev_missing : callback)
      (ids : list Z) :
  forall (acc : bool) (w : World) (r : bool) (w' : World),
    for_in ids (scan_body respond self dev_found dev_missing) acc w = (Ok r, w')
    <-> exists founds,
          scan_run respond self dev_found dev_missing ids w founds w'
          /\ r = existsb (fun found => found) founds || acc.
Proof.
  induction ids as [|dev_id ids IH]; intros acc w r w'.
  - cbn [for_in]. unfold ret. split.
    + intros E. inversion E; subst. exists []. split; [constructor|reflexivity].
    + intros (founds & Hrun & ->).
      apply scan_run_nil_inv in Hrun. destruct Hrun as [-> ->]. reflexivity.
  - cbn [for_in]. unfold bind at 1. rewrite scan_body_eq.
    destruct (ping respond self dev_id w) as [[found|e] w1] eqn:Ep.
    2: { split; [discriminate|].
         intros (founds & Hrun & _). apply scan_run_cons_inv in Hrun.
         destruct Hrun as (f & fs & u1 & u2 & _ & Hp & _). congruence. }
    destruct (call (if found then dev_found else dev_missing) self dev_id w1)
      as [[[]|e] w2] eqn:Ec.
    2: { split; [discriminate|].
         intros (founds & Hrun & _). apply scan_run_cons_inv in Hrun.
         destruct Hrun as (f & fs & u1 & u2 & _ & Hp & Hc & _).
         rewrite Ep in Hp. inversion Hp; subst. congruence. }
    rewrite IH. split.
    + intros (founds & Hrun & ->). exists (found :: founds). split.
      * econstructor; eassumption.
      * cbn [existsb]. now destruct found, (existsb _ founds), acc.
    + intros (founds & Hrun & ->). apply scan_run_cons_inv in Hrun.
      destruct Hrun as (f & fs & u1 & u2 & -> & Hp & Hc & Hrun).
      rewrite Ep in Hp. inversion Hp; subst f u1.
      rewrite Ec in Hc. inversion Hc; subst u2.
      exists fs. split; [assumption|].
      cbn [existsb]. now destruct found, (existsb _ fs), acc.
Qed.

(** What a ping leaves on the trace: nothing when its frame is refused,
    and otherwise its frame followed by reads only.  A [BusError] that
    leaves [ping] is never a TIMEOUT. *)
Lemma ping_trace (self : Bus) (dev_id : Z) (w : World) :
  let out := ping respond self dev_id w in
  match fst out with
  | Raise ValueError => trace (snd out) = trace w
  | Raise IndexError => False
  | Raise (BusError error_code) =>
      error_code <> ErrorCode_TIMEOUT
      /\ exists rs,
           trace (snd out)
           = trace w ++ EvWrite (FrameCodec.encode dev_id Command_PING [])
                     :: map EvRead rs
  | Ok _ =>
      exists rs,
        trace (snd out)
        = trace w ++ EvWrite (FrameCodec.encode dev_id Command_PING [])
                  :: map EvRead rs
  end.
Proof.
  cbv zeta. rewrite ping_eq.
  pose proof (send_ping_sent respond self dev_id w) as Hs. unfold sent in Hs.
  destruct (send_ping respond self dev_id w) as [[[]|e] w1];
    destruct (FrameCodec.encodable _ _ _);
    destruct Hs as [Hs1 Hs2]; cbn [fst snd] in *; try discriminate Hs1.
  2: { inversion Hs1; subst. exact Hs2. }
  pose proof (read_status_packet_reads self w1) as (rs & _ & Ht & Hr).
  rewrite Hs2, <- app_assoc in Ht. cbn [app] in Ht.
  destruct (read_status_packet self w1) as [[pkt|[| |c]] w2];
    cbn [fst snd] in *; try contradiction.
  - now exists rs.
  - destruct (Z.eqb_spec c ErrorCode_TIMEOUT) as [->|Hne]; cbn [fst snd].
    + now exists rs.
    + split; [exact Hne | now exists rs].
Qed.


(** A ping whose frame fits the byte fields returns or raises a
    [BusError]. *)
Lemma ping_sends (self : Bus) (dev_id : Z) (w : World) :
  FrameCodec.encodable dev_id Command_PING [] = true ->
  match fst (ping respond self dev_id w) with
  | Ok _ | Raise (BusError _) => True
  | Raise _ => False
  end.
Proof.
  intros He. rewrite ping_eq.
  pose proof (send_ping_sent respond self dev_id w) as Hs.
  unfold sent in Hs. rewrite He in Hs. destruct Hs as [Hs _].
  destruct (send_ping respond self dev_id w) as [[[]|e] w1];
    cbn [fst] in Hs; [|discriminate].
  pose proof (read_status_packet_reads self w1) as (_ & _ & _ & Hr).
  destruct (read_status_packet self w1) as [[pkt|[| |c]] w2];
    cbn [fst] in *; try contradiction; [exact I|].
  destruct (c =? ErrorCode_TIMEOUT); exact I.
Qed.

(** X11.  With a start id that is not negative, a broadcast id of at
    most 256 and a PING code that is a byte, every id of the range fits a
    byte: with recording callbacks [scan] returns or raises a [BusError],
    and never fails on building a frame. *)
Lemma scan_outcome (self : Bus) (start_id num_ids : Z) (w : World) :
  0 <= start_id -> Id_BROADCAST <= 256 ->
  bytearray.in_range Command_PING = true ->
  match fst (scan respond self start_id num_ids record_found record_missing w)
  with
  | Ok _ | Raise (BusError _) => True
  | Raise _ => False
  end.
Proof.
  intros Hs Hb Hp. rewrite scan_eq.
  assert (Hids : Forall (fun i => bytearray.in_range i = true)
                        (ids_to_scan start_id num_ids)).
  { apply Forall_forall. intros i Hi. unfold ids_to_scan in Hi.
    apply range_In in Hi. apply in_range_true. lia. }
  generalize false as acc. revert w.
  induction Hids as [|dev_id ids Hid _ IH]; intros w acc; [exact I|].
  cbn [for_in]. unfold bind at 1. rewrite scan_body_eq.
  pose proof (ping_sends self dev_id w (encodable_empty _ _ Hid Hp)) as Hping.
  destruct (ping respond self dev_id w) as [[found|[| |c]] w1];
    cbn [fst] in *; try contradiction; [|exact I].
  destruct found; cbn [call record_found record_missing]; apply IH.
Qed.




Lemma for_in_app {A S} (xs ys : list A) (body : A -> S -> M S) :
  forall (s : S) (w : World),
    for_in (xs ++ ys) body s w =
    match for_in xs body s w with
    | (Ok s', w') => for_in ys body s' w'
    | (Raise e, w') => (Raise e, w')
    end.
Proof.
  induction xs as [|x xs IH]; intros s w; [reflexivity|].
  cbn [app for_in]. unfold bind.
  destruct (body x s w) as [[s1|e] w1]; [apply IH | reflexivity].
Qed.

(** C10.  When, during [scan], the ping of an id of the range raises a
    [BusError] (its code is then not TIMEOUT), after the earlier ids
    have been pinged and called back, [scan] raises that same error in
    the world that the failed ping left: since the earlier ids, only the
    ping frame of the failing id and its reads have happened, so no
    callback was called for it, and no later id was pinged or called
    back; what the earlier ids left on the trace stays as it was. *)
Theorem scan_error_propagates (self : Bus) (start_id num_ids : Z)
        (dev_found dev_missing : callback) (w : World)
        (pre post : list Z) (dev_id : Z) (founds : list bool)
        (w1 w2 : World) (error_code : Z) :
  ids_to_scan start_id num_ids = pre ++ dev_id :: post ->
  scan_run respond self dev_found dev_missing pre w founds w1 ->
  ping respond self dev_id w1 = (Raise (BusError error_code), w2) ->
  scan respond self start_id num_ids dev_found dev_missing w
  = (Raise (BusError error_code), w2)
  /\ error_code <> ErrorCode_TIMEOUT
  /\ exists rs,
       trace w2
       = trace w1 ++ EvWrite (FrameCodec.encode dev_id Command_PING [])
                  :: map EvRead rs.
Proof.
  intros Hids Hrun Hping. split.
  - rewrite scan_eq, Hids, for_in_app.
    assert (E : for_in pre (scan_body respond self dev_found dev_missing)
                       false w
                = (Ok (existsb (fun found => found) founds || false), w1))
      by (apply scan_loop_run; exists founds; split; [exact Hrun|reflexivity]).
    rewrite E. cbn [for_in]. unfold bind.
    rewrite scan_body_eq, Hping. reflexivity.
  - pose proof (ping_trace self dev_id w1) as H. cbv zeta in H.
    rewrite Hping in H. exact H.
Qed.

End Scan.

(** ** Synchronised writes *)

Section SyncWrite.

Context {pk : PacketModule}.
Variable respond : list event -> list Z -> list (option Z).

Lemma sync_write_eq (self : Bus) (dev_ids : list Z) (offset : Z)
      (values : list (list Z)) :
  sync_write respond self dev_ids offset values =
  (when (shows self SHOW_COMMANDS)
        (v0 <- lift (list_getitem values 0) ;;
         log (LogSendingSyncWrite dev_ids offset (length v0))) ;;;
   let num_ids := length dev_ids in
   if negb (num_ids =? length values)%nat then raise ValueError
   else
     v0 <- lift (list_getitem values 0) ;;
     let bytes_per_id := length v0 in
     let data := bytearray.zeros (num_ids * (bytes_per_id + 1) + 2) in
     data <- lift (bytearray.setitem data 0 offset) ;;
     data <- lift (bytearray.setitem data 1 (Z.of_nat bytes_per_id)) ;;
     st <- for_in (seq 0 num_ids)
             (sync_write_step dev_ids values bytes_per_id) (data, 2) ;;
     fill_and_write_packet respond self Id_BROADCAST Command_SYNC_WRITE
       (Some (fst st))).
Proof. reflexivity. Qed.

(** A value list of the wrong length anywhere in the rest of the loop
    ends the loop with [ValueError]; the stores of the iterations before
    it stay inside [data]. *)
Lemma sync_write_loop_refuses (dev_ids : list Z) (values : list (list Z))
      (bytes_per_id : nat) (m : nat) :
  forall (k : nat) (data : list Z) (data_idx : nat) (w : World),
    (k + m <= length values)%nat ->
    (k + m <= length dev_ids)%nat ->
    (data_idx + m * (bytes_per_id + 1) <= length data)%nat ->
    (exists i v, (k <= i < k + m)%nat
                 /\ nth_error values i = Some v
                 /\ length v <> bytes_per_id) ->
    for_in (seq k m) (sync_write_step dev_ids values bytes_per_id)
           (data, Z.of_nat data_idx) w
    = (Raise ValueError, w).
Proof.
  induction m as [|m IH]; intros k data data_idx w Hv Hd Hlen Hbad.
  - destruct Hbad as (i & v & Hi & _). lia.
  - cbn [seq for_in]. unfold bind at 1. unfold sync_write_step at 1.
    unfold bind at 1, lift at 1, list_getitem at 1.
    destruct (nth_error values k) as [v|] eqn:Ev;
      [|apply nth_error_None in Ev; lia].
    destruct (Nat.eqb_spec (length v) bytes_per_id) as [Hb|Hb];
      [|reflexivity].
    cbn [negb]. unfold bind at 1, lift at 1, list_getitem at 1.
    destruct (nth_error dev_ids k) as [dev_id|] eqn:Ei;
      [|apply nth_error_None in Ei; lia].
    unfold bind at 1, lift at 1.
    destruct (bytearray.in_range dev_id) eqn:Hid;
      [|rewrite setitem_bad_value by exact Hid; reflexivity].
    destruct (setitem_inside data data_idx dev_id Hid ltac:(lia))
      as (data1 & -> & Hl1).
    unfold bind at 1, lift at 1.
    destruct (forallb bytearray.in_range v) eqn:Hok;
      [|rewrite setslice_bad_value by exact Hok; reflexivity].
    replace (Z.of_nat data_idx + 1) with (Z.of_nat (S data_idx)) by lia.
    rewrite <- Hb.
    destruct (setslice_inside data1 (S data_idx) v Hok ltac:(lia))
      as (data2 & -> & Hl2).
    unfold ret at 1.
    replace (Z.of_nat (S data_idx) + Z.of_nat (length v))
      with (Z.of_nat (S data_idx + length v)) by lia.
    rewrite Hb. apply IH; try lia.
    destruct Hbad as (i & v' & Hi & Hv' & Hne).
    exists i, v'. split; [|split; assumption].
    assert (i <> k) by (intros ->; congruence). lia.
Qed.

(** X2.  With command tracing off, or with a [values] that is not empty,
    [sync_write] refuses a call whose dimensions do not match with
    [ValueError], before anything is handed to the transport. *)
Theorem sync_write_validation (self : Bus) (dev_ids : list Z) (offset : Z)
        (values : list (list Z)) (w : World) :
  shows self SHOW_COMMANDS = false \/ values <> [] ->
  length dev_ids <> length values
  \/ (exists v, In v values /\ length v <> length (hd [] values)) ->
  fst (sync_write respond self dev_ids offset values w) = Raise ValueError
  /\ trace (snd (sync_write respond self dev_ids offset values w)) = trace w.
Proof.
  intros Hshow Hbad. rewrite sync_write_eq.
  match goal with
  | |- context [(?c ;;; ?k) w] =>
      assert (Hq : quiet c);
      [|destruct (quiet_bind c k w Hq) as [dg ->]; clear Hq]
  end.
  { destruct values as [|v0 values].
    - destruct Hshow as [->|H]; [apply quiet_ret | contradiction].
    - apply quiet_when. cbn. apply quiet_log. }
  cbv zeta.
  match goal with
  | |- fst (?c ?u) = _ /\ _ =>
      enough (E : c u = (Raise ValueError, u))
        by (rewrite E; split; reflexivity);
      generalize u; clear dg
  end.
  intros u.
  destruct (Nat.eqb_spec (length dev_ids) (length values)) as [Hn|Hn];
    [|reflexivity].
  destruct Hbad as [Hbad|(v & Hin & Hv)]; [contradiction|].
  destruct values as [|v0 values]; [contradiction|]. cbn [hd] in Hv.
  cbn [negb]. unfold bind at 1, lift at 1. cbn [list_getitem nth_error].
  replace (length dev_ids * (length v0 + 1) + 2)%nat
    with (S (S (length dev_ids * (length v0 + 1)))) by lia.
  change (bytearray.zeros (S (S ?n))) with (0 :: 0 :: bytearray.zeros n).
  unfold bind at 1, lift at 1.
  destruct (bytearray.in_range offset) eqn:Hoff;
    [rewrite setitem_0 by exact Hoff
    |rewrite setitem_bad_value by exact Hoff; reflexivity].
  unfold bind at 1, lift at 1.
  destruct (bytearray.in_range (Z.of_nat (length v0))) eqn:Hbpi;
    [rewrite setitem_1 by exact Hbpi
    |rewrite setitem_bad_value by exact Hbpi; reflexivity].
  unfold bind at 1.
  rewrite (sync_write_loop_refuses dev_ids (v0 :: values) (length v0)
             (length dev_ids) 0 _ 2).
  - reflexivity.
  - lia.
  - lia.
  - cbn [length]. unfold bytearray.zeros. rewrite repeat_length. lia.
  - apply In_nth_error in Hin. destruct Hin as [i Hi].
    exists i, v. split; [|split; assumption].
    assert (i < length (v0 :: values))%nat
      by (apply nth_error_Some; congruence).
    lia.
Qed.

(** C9.  [sync_write] with no ids and no values passes the dimension
    check and then fails on [values[0]]: it raises [IndexError], not
    [ValueError], whatever the verbosity, and leaves the world as it
    was, so nothing is handed to the transport. *)
Theorem sync_write_empty (self : Bus) (offset : Z) (w : World) :
  sync_write respond self [] offset [] w = (Raise IndexError, w)
  /\ writes (since w (snd (sync_write respond self [] offset [] w))) = [].
Proof.
  assert (E : sync_write respond self [] offset [] w = (Raise IndexError, w)).
  { unfold sync_write. destruct (shows self SHOW_COMMANDS); reflexivity. }
  split; [exact E|]. rewrite E. now rewrite since_same.
Qed.

(** C6 (the defect).  With command tracing on, a call whose [values] is
    empty while [dev_ids] is not (so [len(dev_ids) != len(values)])
    raises [IndexError] from the trace statement's [len(values[0])],
    not the [ValueError] of the dimension check; nothing is written. *)
Theorem sync_write_mismatch_traced (self : Bus) (dev_id : Z)
        (dev_ids : list Z) (offset : Z) (w : World) :
  let out := sync_write respond self (dev_id :: dev_ids) offset [] w in
  length (dev_id :: dev_ids) <> length (@nil (list Z))
  /\ (if shows self SHOW_COMMANDS
      then out = (Raise IndexError, w)
      else out = (Raise ValueError, w))
  /\ writes (since w (snd out)) = [].
Proof.
  cbv zeta. split; [discriminate|].
  unfold sync_write. destruct (shows self SHOW_COMMANDS);
    (split; [reflexivity|]); now rewrite since_same.
Qed.

(** C8 (the defect).  Two runs of the same [sync_write] call that differ
    in the verbosity only end with different errors: [ValueError] with
    tracing off, [IndexError] with command tracing on. *)
Theorem verbosity_changes_sync_write (w : World) :
  fst (sync_write respond (mkBus SHOW_NONE) [1] 30 [] w) = Raise ValueError
  /\ fst (sync_write respond (mkBus SHOW_COMMANDS) [1] 30 [] w)
     = Raise IndexError.
Proof. split; reflexivity. Qed.

End SyncWrite.

(** ** Verbosity

    Apart from the trace statement of [sync_write], which indexes
    [values[0]], the verbosity only decides what goes to the diagnostic
    sink: two buses that differ in [show] do the same to the line and end
    with the same value or error. *)

Section Verbosity.

Context {pk : PacketModule}.
Variable respond : list event -> list Z -> list (option Z).

Lemma same_line_refl (w : World) : same_line w w.
Proof. split; reflexivity. Qed.

Lemma agree_ret {A} (a : A) : agree (ret a) (ret a).
Proof. intros w1 w2 H. split; [reflexivity | exact H]. Qed.

Lemma agree_raise {A} (e : exn) : agree (@raise A e) (raise e).
Proof. intros w1 w2 H. split; [reflexivity | exact H]. Qed.

Lemma agree_lift {A} (r : result A) : agree (lift r) (lift r).
Proof. intros w1 w2 H. split; [reflexivity | exact H]. Qed.

Lemma agree_bind {A B} (c1 c2 : M A) (k1 k2 : A -> M B) :
  agree c1 c2 -> (forall a, agree (k1 a) (k2 a)) ->
  agree (bind c1 k1) (bind c2 k2).
Proof.
  intros Hc Hk w1 w2 H. unfold bind.
  destruct (Hc w1 w2 H) as [Hr Hl].
  destruct (c1 w1) as [[a1|e1] u1], (c2 w2) as [[a2|e2] u2];
    cbn [fst snd] in *; try discriminate.
  - inversion Hr; subst. now apply Hk.
  - inversion Hr; subst. split; [reflexivity | exact Hl].
Qed.

Lemma agree_quiet (c1 c2 : M unit) : quiet c1 -> quiet c2 -> agree c1 c2.
Proof.
  intros H1 H2 w1 w2 [Hrx Htr].
  destruct (H1 w1) as [d1 ->], (H2 w2) as [d2 ->].
  split; [reflexivity | split; assumption].
Qed.

Lemma agree_if {A} (b : bool) (c1 c2 d1 d2 : M A) :
  agree c1 c2 -> agree d1 d2 ->
  agree (if b then c1 else d1) (if b then c2 else d2).
Proof. now destruct b. Qed.

Lemma agree_write_packet (frame : list Z) :
  agree (write_packet respond frame) (write_packet respond frame).
Proof.
  intros w1 w2 [Hrx Htr]. unfold write_packet.
  split; [reflexivity|]. split; cbn [snd rx trace]; congruence.
Qed.

Lemma agree_for_in {A S} (xs : list A) (body1 body2 : A -> S -> M S) :
  (forall x s, agree (body1 x s) (body2 x s)) ->
  forall s, agree (for_in xs body1 s) (for_in xs body2 s).
Proof.
  intros Hb. induction xs as [|x xs IH]; intros s; cbn [for_in].
  - apply agree_ret.
  - apply agree_bind; [apply Hb | exact IH].
Qed.

Lemma agree_try {A} (c1 c2 : M A) (h1 h2 : Z -> M A) :
  agree c1 c2 -> (forall code, agree (h1 code) (h2 code)) ->
  agree (try_except_BusError c1 h1) (try_except_BusError c2 h2).
Proof.
  intros Hc Hh w1 w2 H. unfold try_except_BusError.
  destruct (Hc w1 w2 H) as [Hr Hl].
  destruct (c1 w1) as [[a1|[| |x1]] u1], (c2 w2) as [[a2|[| |x2]] u2];
    cbn [fst snd] in *; try discriminate;
    try (split; [exact Hr | exact Hl]).
  inversion Hr; subst. now apply Hh.
Qed.

Create HintDb agree.

#[local] Hint Resolve agree_ret agree_raise agree_lift agree_write_packet
  quiet_ret quiet_log quiet_if quiet_when : agree.

Lemma quiet_seq (c1 c2 : M unit) : quiet c1 -> quiet c2 -> quiet (c1 ;;; c2).
Proof.
  intros H1 H2 w. unfold bind. destruct (H1 w) as [d1 ->].
  destruct (H2 (mkWorld (rx w) (trace w) d1)) as [d2 E]. exists d2. exact E.
Qed.

(** The read loop does not look at the sink. *)
Lemma agree_read_status_loop (pending : list (option Z)) :
  forall (pkt : Packet) (received_bytes : list Z) (w1 w2 : World),
    trace w1 = trace w2 ->
    same_outcome (read_status_loop pending pkt received_bytes w1)
                 (read_status_loop pending pkt received_bytes w2).
Proof.
  induction pending as [|[byte|] rest IH]; intros pkt received_bytes w1 w2 Ht.
  - cbn. rewrite Ht. repeat split.
  - cbn [read_status_loop].
    destruct (process_byte pkt byte) as [error_code pkt'].
    destruct (error_code =? ErrorCode_NOT_DONE).
    + apply IH. cbn [trace]. now rewrite Ht.
    + destruct (error_code =? ErrorCode_NONE);
        [cbn; rewrite Ht; repeat split|].
      destruct (error_code =? ErrorCode_OVERHEATING);
        [cbn; rewrite Ht; repeat split|].
      destruct (error_code =? ErrorCode_CHECKSUM);
        cbn; rewrite Ht; repeat split.
  - cbn. rewrite Ht. repeat split.
Qed.

Lemma agree_read_status_packet (self1 self2 : Bus) :
  agree (read_status_packet self1) (read_status_packet self2).
Proof.
  intros w1 w2 [Hrx Htr]. unfold read_status_packet, read_status_from.
  rewrite Hrx. now apply agree_read_status_loop.
Qed.

Lemma agree_fill_and_write_packet (self1 self2 : Bus) (dev_id cmd : Z)
      (data : option (list Z)) :
  agree (fill_and_write_packet respond self1 dev_id cmd data)
        (fill_and_write_packet respond self2 dev_id cmd data).
Proof.
  intros w1 w2 H. rewrite !fill_and_write_packet_eq.
  destruct (FrameCodec.encodable _ _ _); [|split; [reflexivity | exact H]].
  revert w1 w2 H. apply agree_bind.
  - apply agree_quiet; auto with agree.
  - intros _. apply agree_write_packet.
Qed.

#[local] Hint Resolve agree_fill_and_write_packet agree_read_status_packet
  : agree.

Ltac agrees :=
  repeat (cbv beta iota;
          first [ apply agree_ret | apply agree_raise | apply agree_lift
                | apply agree_write_packet
                | apply agree_fill_and_write_packet
                | apply agree_read_status_packet
                | apply agree_if
                | apply agree_bind; [|intro] ]).

Lemma agree_after_quiet {A} (c1 c2 : M unit) (k1 k2 : M A) :
  quiet c1 -> quiet c2 -> agree k1 k2 -> agree (c1 ;;; k1) (c2 ;;; k2).
Proof.
  intros H1 H2 Hk.
  apply agree_bind; [now apply agree_quiet | intros _; exact Hk].
Qed.

Lemma agree_send_ping (self1 self2 : Bus) (dev_id : Z) :
  agree (send_ping respond self1 dev_id) (send_ping respond self2 dev_id).
Proof. apply agree_after_quiet; auto with agree. Qed.

Lemma agree_send_reset (self1 self2 : Bus) (dev_id : Z) :
  agree (send_reset respond self1 dev_id) (send_reset respond self2 dev_id).
Proof. apply agree_after_quiet; auto with agree. Qed.

Lemma agree_send_read (self1 self2 : Bus) (dev_id offset num_bytes : Z) :
  agree (send_read respond self1 dev_id offset num_bytes)
        (send_read respond self2 dev_id offset num_bytes).
Proof. apply agree_after_quiet; auto with agree. agrees. Qed.

Lemma agree_send_write (self1 self2 : Bus) (dev_id offset : Z)
      (data : list Z) (deferred : bool) :
  agree (send_write respond self1 dev_id offset data deferred)
        (send_write respond self2 dev_id offset data deferred).
Proof. apply agree_after_quiet; auto with agree. agrees. Qed.

Lemma agree_response (self1 self2 : Bus) (dev_id : Z) :
  agree (if dev_id =? Id_BROADCAST then ret ErrorCode_NONE
         else pkt <- read_status_packet self1 ;; ret (Packet_error_code pkt))
        (if dev_id =? Id_BROADCAST then ret ErrorCode_NONE
         else pkt <- read_status_packet self2 ;; ret (Packet_error_code pkt)).
Proof. agrees. Qed.

Lemma agree_ping (self1 self2 : Bus) (dev_id : Z) :
  agree (ping respond self1 dev_id) (ping respond self2 dev_id).
Proof.
  apply agree_bind; [apply agree_send_ping|]. intros _.
  apply agree_try; [|intros code]; agrees.
Qed.

Lemma agree_call (cb : callback) (self1 self2 : Bus) (dev_id : Z) :
  (forall f, cb = Some f -> agree (f self1 dev_id) (f self2 dev_id)) ->
  agree (call cb self1 dev_id) (call cb self2 dev_id).
Proof.
  intros H. destruct cb as [f|]; cbn [call]; [now apply H | apply agree_ret].
Qed.

(** X3.  For every operation but [sync_write], and for [sync_write] when
    [values] is not empty, two buses that differ in verbosity only write
    the same frames, make the same reads and end with the same value or
    the same error.  The callbacks given to [scan] are assumed not to
    look at the verbosity or the sink themselves. *)
Theorem verbosity_observational (self1 self2 : Bus) :
  (forall dev_id, agree (ping respond self1 dev_id) (ping respond self2 dev_id))
  /\ (forall dev_id offset num_bytes,
        agree (read respond self1 dev_id offset num_bytes)
              (read respond self2 dev_id offset num_bytes))
  /\ (forall dev_id offset data deferred,
        agree (write respond self1 dev_id offset data deferred)
              (write respond self2 dev_id offset data deferred))
  /\ (forall dev_id,
        agree (reset respond self1 dev_id) (reset respond self2 dev_id))
  /\ agree (action respond self1) (action respond self2)
  /\ (forall dev_ids offset values,
        values <> [] ->
        agree (sync_write respond self1 dev_ids offset values)
              (sync_write respond self2 dev_ids offset values))
  /\ (forall start_id num_ids dev_found dev_missing,
        (forall f dev_id, dev_found = Some f \/ dev_missing = Some f ->
                          agree (f self1 dev_id) (f self2 dev_id)) ->
        agree (scan respond self1 start_id num_ids dev_found dev_missing)
              (scan respond self2 start_id num_ids dev_found dev_missing)).
Proof.
  split; [|split; [|split; [|split; [|split; [|split]]]]].
  - apply agree_ping.
  - intros. unfold read.
    apply agree_bind; [apply agree_send_read|]. intros _. agrees.
  - intros. unfold write.
    apply agree_bind; [apply agree_send_write|]. intros _.
    apply agree_response.
  - intros. unfold reset.
    apply agree_bind; [apply agree_send_reset|]. intros _.
    apply agree_response.
  - apply agree_after_quiet; auto with agree.
  - intros dev_ids offset values Hv. unfold sync_write.
    destruct values as [|v0 values]; [contradiction|].
    apply agree_after_quiet.
    + apply quiet_when. cbn. apply quiet_log.
    + apply quiet_when. cbn. apply quiet_log.
    + agrees. apply agree_for_in. intros id_idx [d i]. agrees.
  - intros start_id num_ids dev_found dev_missing Hcb.
    rewrite !scan_eq. apply agree_for_in. intros dev_id acc.
    unfold scan_body. apply agree_bind; [apply agree_ping|].
    intros [|]; (apply agree_bind; [|intros _; apply agree_ret]);
      apply agree_call; intros f Hf; apply Hcb; auto.
Qed.

End Verbosity.

(** ** More on the status read *)

Section StatusRead.

Context {pk : PacketModule}.

Lemma read_status_loop_completes (bytes : list Z) :
  forall (pkt : Packet) (received_bytes : list Z) (w : World)
         (pkt1 : Packet) (last error_code : Z) (pkt2 : Packet)
         (rest : list (option Z)),
    assemble pkt bytes = Some pkt1 ->
    process_byte pkt1 last = (error_code, pkt2) ->
    error_code <> ErrorCode_NOT_DONE ->
    let out := read_status_loop (map Some (bytes ++ [last]) ++ rest)
                                pkt received_bytes w in
    fst out = (if error_code =? ErrorCode_NONE then Ok pkt2
               else Raise (BusError error_code))
    /\ rx (snd out) = rest
    /\ trace (snd out) = trace w ++ map EvRead (map Some (bytes ++ [last])).
Proof.
  induction bytes as [|byte bytes IH];
    intros pkt received_bytes w pkt1 last error_code pkt2 rest Ha Hp Hc;
    cbv zeta.
  - cbn in Ha. inversion Ha; subst pkt1.
    cbn [app map read_status_loop]. rewrite Hp.
    destruct (Z.eqb_spec error_code ErrorCode_NOT_DONE); [contradiction|].
    destruct (error_code =? ErrorCode_NONE); [repeat split|].
    destruct (error_code =? ErrorCode_OVERHEATING); [repeat split|].
    destruct (error_code =? ErrorCode_CHECKSUM); repeat split.
  - cbn [assemble] in Ha. cbn [app map read_status_loop].
    destruct (process_byte pkt byte) as [c0 pkt'].
    destruct (c0 =? ErrorCode_NOT_DONE); [|discriminate].
    destruct (IH pkt' (received_bytes ++ [byte])
                 (mkWorld (map Some (bytes ++ [last]) ++ rest)
                          (trace w ++ [EvRead (Some byte)]) (diag w))
                 pkt1 last error_code pkt2 rest Ha Hp Hc) as (H1 & H2 & H3).
    split; [exact H1|]. split; [exact H2|].
    rewrite H3. cbn [trace]. now rewrite <- app_assoc.
Qed.

Lemma read_status_loop_starved (bytes : list Z) :
  forall (pkt : Packet) (received_bytes : list Z) (w : World)
         (pkt1 : Packet) (rest : list (option Z)),
    assemble pkt bytes = Some pkt1 ->
    hd None rest = None ->
    let out := read_status_loop (map Some bytes ++ rest)
                                pkt received_bytes w in
    fst out = Raise (BusError ErrorCode_TIMEOUT)
    /\ rx (snd out) = tl rest
    /\ trace (snd out)
       = trace w ++ map EvRead (map Some bytes) ++ [EvRead None].
Proof.
  induction bytes as [|byte bytes IH];
    intros pkt received_bytes w pkt1 rest Ha Hr; cbv zeta.
  - cbn [app map].
    destruct rest as [|[b|] rest]; cbn [hd] in Hr; try discriminate;
      repeat split.
  - cbn [assemble] in Ha. cbn [app map read_status_loop].
    destruct (process_byte pkt byte) as [c0 pkt'].
    destruct (c0 =? ErrorCode_NOT_DONE); [|discriminate].
    destruct (IH pkt' (received_bytes ++ [byte])
                 (mkWorld (map Some bytes ++ rest)
                          (trace w ++ [EvRead (Some byte)]) (diag w))
                 pkt1 rest Ha Hr) as (H1 & H2 & H3).
    split; [exact H1|]. split; [exact H2|].
    rewrite H3. cbn [trace]. now rewrite <- app_assoc.
Qed.

(** X4.  A status read takes exactly the bytes of one frame off the
    line: when the parser answers NOT_DONE to the bytes before [last] and
    another code to [last], the read ends at [last], returning the packet
    if that code is NONE and raising [BusError] with the code otherwise;
    the outcomes that follow stay pending for the next read. *)
Theorem read_status_packet_completes (self : Bus) (w : World)
        (bytes : list Z) (last error_code : Z) (pkt1 pkt2 : Packet)
        (rest : list (option Z)) :
  rx w = map Some (bytes ++ [last]) ++ rest ->
  assemble Packet_new bytes = Some pkt1 ->
  process_byte pkt1 last = (error_code, pkt2) ->
  error_code <> ErrorCode_NOT_DONE ->
  fst (read_status_packet self w)
  = (if error_code =? ErrorCode_NONE then Ok pkt2
     else Raise (BusError error_code))
  /\ rx (snd (read_status_packet self w)) = rest
  /\ reads (since w (snd (read_status_packet self w)))
     = map Some (bytes ++ [last]).
Proof.
  intros Hrx Ha Hp Hc. unfold read_status_packet, read_status_from.
  rewrite Hrx.
  destruct (read_status_loop_completes bytes Packet_new [] w pkt1 last
              error_code pkt2 rest Ha Hp Hc) as (H1 & H2 & H3).
  split; [exact H1|]. split; [exact H2|].
  rewrite (since_app _ _ _ H3). apply reads_map.
Qed.

(** X5.  A status read that runs dry raises [BusError(TIMEOUT)]: when the
    parser answers NOT_DONE to all the bytes that arrive and the next
    [read_byte] yields nothing, the read has consumed those bytes and
    that one timeout, and nothing else. *)
Theorem read_status_packet_starved (self : Bus) (w : World)
        (bytes : list Z) (pkt1 : Packet) (rest : list (option Z)) :
  rx w = map Some bytes ++ rest ->
  hd None rest = None ->
  assemble Packet_new bytes = Some pkt1 ->
  fst (read_status_packet self w) = Raise (BusError ErrorCode_TIMEOUT)
  /\ rx (snd (read_status_packet self w)) = tl rest
  /\ reads (since w (snd (read_status_packet self w)))
     = map Some bytes ++ [None].
Proof.
  intros Hrx Hr Ha. unfold read_status_packet, read_status_from.
  rewrite Hrx.
  destruct (read_status_loop_starved bytes Packet_new [] w pkt1 rest Ha Hr)
    as (H1 & H2 & H3).
  split; [exact H1|]. split; [exact H2|].
  rewrite (since_app _ _ _ H3), reads_app, reads_map. reflexivity.
Qed.

Lemma read_status_loop_codes (pending : list (option Z)) :
  ErrorCode_TIMEOUT <> ErrorCode_NOT_DONE ->
  ErrorCode_TIMEOUT <> ErrorCode_NONE ->
  forall (pkt : Packet) (received_bytes : list Z) (w : World)
         (error_code : Z),
    fst (read_status_loop pending pkt received_bytes w)
    = Raise (BusError error_code) ->
    error_code <> ErrorCode_NOT_DONE /\ error_code <> ErrorCode_NONE.
Proof.
  intros Hn1 Hn2.
  induction pending as [|[byte|] rest IH];
    intros pkt received_bytes w error_code H.
  - cbn in H. inversion H; subst. split; assumption.
  - cbn [read_status_loop] in H.
    destruct (process_byte pkt byte) as [c pkt'].
    destruct (Z.eqb_spec c ErrorCode_NOT_DONE) as [|Hc1];
      [exact (IH _ _ _ _ H)|].
    destruct (Z.eqb_spec c ErrorCode_NONE) as [|Hc2]; [discriminate H|].
    assert (error_code = c) as ->; [|split; assumption].
    destruct (c =? ErrorCode_OVERHEATING);
      [|destruct (c =? ErrorCode_CHECKSUM)]; cbn in H; congruence.
  - cbn in H. inversion H; subst. split; assumption.
Qed.

(** X13.  The internal codes stay internal: provided TIMEOUT differs
    from NOT_DONE and from NONE, a [BusError] raised by a status read
    never carries NOT_DONE (still assembling) nor NONE (success). *)
Theorem read_status_packet_codes (self : Bus) (w : World) (error_code : Z) :
  ErrorCode_TIMEOUT <> ErrorCode_NOT_DONE ->
  ErrorCode_TIMEOUT <> ErrorCode_NONE ->
  fst (read_status_packet self w) = Raise (BusError error_code) ->
  error_code <> ErrorCode_NOT_DONE /\ error_code <> ErrorCode_NONE.
Proof.
  intros Hn1 Hn2. apply read_status_loop_codes; assumption.
Qed.

End StatusRead.

(** ** More on the commands *)

Section Exchanges.

Context {pk : PacketModule}.
Variable respond : list event -> list Z -> list (option Z).

Import bytearray.

(** The world after a frame went out: the answer of the devices is
    pending behind what was pending, and the frame is on the trace. *)
Lemma fill_and_write_packet_world (self : Bus) (dev_id cmd : Z)
      (data : option (list Z)) (w : World) :
  let payload := match data with Some d => d | None => [] end in
  let frame := FrameCodec.encode dev_id cmd payload in
  FrameCodec.encodable dev_id cmd payload = true ->
  exists dg,
    fill_and_write_packet respond self dev_id cmd data w
    = (Ok tt, mkWorld (rx w ++ respond (trace w) frame)
                      (trace w ++ [EvWrite frame]) dg).
Proof.
  cbv zeta. intros He. rewrite fill_and_write_packet_eq, He.
  unfold bind, when. destruct (truthy _); eexists; reflexivity.
Qed.

Lemma sent_world (c : M unit) (self : Bus) (dev_id cmd : Z)
      (data : option (list Z)) (w : World) :
  quiet c ->
  let payload := match data with Some d => d | None => [] end in
  let frame := FrameCodec.encode dev_id cmd payload in
  FrameCodec.encodable dev_id cmd payload = true ->
  exists dg,
    (c ;;; fill_and_write_packet respond self dev_id cmd data) w
    = (Ok tt, mkWorld (rx w ++ respond (trace w) frame)
                      (trace w ++ [EvWrite frame]) dg).
Proof.
  cbv zeta. intros Hc He.
  destruct (quiet_bind c (fill_and_write_packet respond self dev_id cmd data)
                       w Hc) as [dg ->].
  exact (fill_and_write_packet_world self dev_id cmd data _ He).
Qed.



Lemma encodable_payload (dev_id cmd : Z) (payload : list Z) :
  FrameCodec.encodable dev_id cmd payload = true ->
  forallb in_range payload = true.
Proof.
  unfold FrameCodec.encodable. intros H.
  apply andb_true_iff in H. apply H.
Qed.



Lemma send_write_world (self : Bus) (dev_id offset : Z) (data : list Z)
      (deferred : bool) (w : World) :
  let cmd := if deferred then Command_REG_WRITE else Command_WRITE in
  let frame := FrameCodec.encode dev_id cmd (offset :: data) in
  writable dev_id cmd offset data = true ->
  exists dg,
    send_write respond self dev_id offset data deferred w
    = (Ok tt, mkWorld (rx w ++ respond (trace w) frame)
                      (trace w ++ [EvWrite frame]) dg).
Proof.
  cbv zeta. intros Hw. unfold writable in Hw.
  apply andb_true_iff in Hw. destruct Hw as [Hne He].
  pose proof (encodable_payload _ _ _ He) as Hp.
  cbn [forallb] in Hp. apply andb_true_iff in Hp. destruct Hp as [Ho Hd].
  rewrite send_write_eq.
  match goal with
  | |- context [(?c ;;; ?k) w] =>
      assert (Hq : quiet c)
        by (apply quiet_when, quiet_if; apply quiet_log);
      destruct (quiet_bind c k w Hq) as [dg ->]
  end.
  rewrite Ho. cbn [negb].
  destruct data as [|x data]; [discriminate Hne|]. rewrite Hd.
  exact (fill_and_write_packet_world self dev_id _ (Some (offset :: x :: data))
           (mkWorld (rx w) (trace w) dg) He).
Qed.

(** X7.  [send_write] sends WRITE, or REG_WRITE when [deferred], with
    the payload [[offset] + data]: the frame is
    FF FF id (3 + len(data)) cmd offset data... checksum.  It is written
    exactly when [data] is not empty and the id, the command, the offset,
    the data and the length byte fit a byte.  Otherwise nothing is
    written, and the call raises [IndexError] when the offset is a byte
    and [data] is empty, and [ValueError] in every other case. *)
Theorem send_write_frame (self : Bus) (dev_id offset : Z) (data : list Z)
        (deferred : bool) (w : World) :
  let cmd := if deferred then Command_REG_WRITE else Command_WRITE in
  let out := send_write respond self dev_id offset data deferred w in
  if writable dev_id cmd offset data
  then fst out = Ok tt
       /\ exists checksum,
            since w (snd out)
            = [EvWrite ([255; 255; dev_id; Z.of_nat (length data) + 3; cmd;
                         offset] ++ data ++ [checksum])]
  else since w (snd out) = []
       /\ fst out = (if in_range offset && (length data =? 0)%nat
                     then Raise IndexError else Raise ValueError).
Proof.
  cbv zeta.
  destruct (writable _ _ _ _) eqn:Hw.
  - destruct (send_write_world self dev_id offset data deferred w Hw)
      as [dg ->].
    split; [reflexivity|]. eexists. cbn [snd].
    rewrite (since_app _ (mkWorld _ _ dg) _ eq_refl).
    unfold FrameCodec.encode, FrameCodec.body. cbn [length app].
    replace (2 + Z.of_nat (S (length data)))
      with (Z.of_nat (length data) + 3) by lia.
    reflexivity.
  - rewrite send_write_eq.
    match goal with
    | |- context [(?c ;;; ?k) w] =>
        assert (Hq : quiet c)
          by (apply quiet_when, quiet_if; apply quiet_log);
        destruct (quiet_bind c k w Hq) as [dg ->]
    end.
    unfold writable in Hw.
    destruct (in_range offset) eqn:Ho; cbn [negb andb];
      [|split; [now apply since_same | reflexivity]].
    destruct data as [|x data]; cbn [length Nat.eqb];
      [split; [now apply since_same | reflexivity]|].
    cbn [negb andb length Nat.eqb] in Hw.
    destruct (forallb in_range (x :: data)) eqn:Hd;
      [|split; [now apply since_same | reflexivity]].
    pose proof (fill_and_write_packet_since respond self dev_id
                  (if deferred then Command_REG_WRITE else Command_WRITE)
                  (Some (offset :: x :: data))
                  (mkWorld (rx w) (trace w) dg)) as H.
    cbv beta iota zeta in H. rewrite Hw in H. destruct H as [H1 H2].
    split; [now apply since_same | exact H1].
Qed.



End Exchanges.

(** ** Frames on the wire, for every operation *)

Section WireFrames.

Context {pk : PacketModule}.
Variable respond : list event -> list Z -> list (option Z).

Lemma wire_frame_encode (dev_id cmd : Z) (payload : list Z) :
  FrameCodec.encodable dev_id cmd payload = true ->
  wire_frame (FrameCodec.encode dev_id cmd payload).
Proof.
  intros He. unfold FrameCodec.encodable in He.
  apply andb_true_iff in He. destruct He as [He Hp].
  apply andb_true_iff in He. destruct He as [He Hl].
  apply andb_true_iff in He. destruct He as [Hd Hc].
  split; [reflexivity|]. split; [|split].
  - unfold FrameCodec.encode, FrameCodec.body.
    cbn [app nth length]. rewrite length_app. cbn [length]. lia.
  - unfold FrameCodec.encode, FrameCodec.body. cbn [app].
    repeat (constructor; [try lia; now apply in_range_true|]).
    apply Forall_app. split.
    + apply Forall_forall. intros x Hx. apply in_range_true.
      rewrite forallb_forall in Hp. now apply Hp.
    + constructor; [|constructor].
      apply in_range_true, checksum_in_range.
  - apply encode_checksum_ok.
Qed.

Lemma frames_pure {A} (c : M A) :
  (forall w, trace (snd (c w)) = trace w) -> writes_frames c.
Proof.
  intros H w. exists []. rewrite H, app_nil_r. split; [reflexivity|constructor].
Qed.

Lemma frames_ret {A} (a : A) : writes_frames (ret a).
Proof. now apply frames_pure. Qed.

Lemma frames_raise {A} (e : exn) : writes_frames (@raise A e).
Proof. now apply frames_pure. Qed.

Lemma frames_lift {A} (r : result A) : writes_frames (lift r).
Proof. now apply frames_pure. Qed.

Lemma frames_log (l : log_line) : writes_frames (log l).
Proof. now apply frames_pure. Qed.

Lemma frames_if {A} (b : bool) (c1 c2 : M A) :
  writes_frames c1 -> writes_frames c2 ->
  writes_frames (if b then c1 else c2).
Proof. now destruct b. Qed.

Lemma frames_when (b : bool) (c : M unit) :
  writes_frames c -> writes_frames (when b c).
Proof. intros H. apply frames_if; [exact H | apply frames_ret]. Qed.

Lemma frames_bind {A B} (c : M A) (k : A -> M B) :
  writes_frames c -> (forall a, writes_frames (k a)) ->
  writes_frames (bind c k).
Proof.
  intros Hc Hk w. destruct (Hc w) as (d1 & E1 & F1). unfold bind.
  destruct (c w) as [[a|e] w1]; cbn [snd] in *.
  - destruct (Hk a w1) as (d2 & E2 & F2). exists (d1 ++ d2).
    rewrite E2, E1, app_assoc. split; [reflexivity|].
    rewrite writes_app. apply Forall_app. now split.
  - exists d1. now split.
Qed.

Lemma frames_try {A} (c : M A) (handler : Z -> M A) :
  writes_frames c -> (forall code, writes_frames (handler code)) ->
  writes_frames (try_except_BusError c handler).
Proof.
  intros Hc Hh w. destruct (Hc w) as (d1 & E1 & F1).
  unfold try_except_BusError.
  destruct (c w) as [[a|[| |code]] w1]; cbn [snd] in *;
    try (exists d1; now split).
  destruct (Hh code w1) as (d2 & E2 & F2). exists (d1 ++ d2).
  rewrite E2, E1, app_assoc. split; [reflexivity|].
  rewrite writes_app. apply Forall_app. now split.
Qed.

Lemma frames_for_in {A S} (xs : list A) (body : A -> S -> M S) :
  (forall x s, writes_frames (body x s)) ->
  forall s, writes_frames (for_in xs body s).
Proof.
  intros Hb. induction xs as [|x xs IH]; intros s; cbn [for_in].
  - apply frames_ret.
  - apply frames_bind; [apply Hb | exact IH].
Qed.

Lemma frames_fill_and_write_packet (self : Bus) (dev_id cmd : Z)
      (data : option (list Z)) :
  writes_frames (fill_and_write_packet respond self dev_id cmd data).
Proof.
  intros w.
  pose proof (fill_and_write_packet_since respond self dev_id cmd data w)
    as H. cbv zeta in H.
  destruct (FrameCodec.encodable _ _ _) eqn:He; destruct H as [_ H].
  - eexists. split; [exact H|]. cbn. constructor; [|constructor].
    now apply wire_frame_encode.
  - exists []. rewrite H, app_nil_r. split; [reflexivity|constructor].
Qed.

Lemma frames_read_status_packet (self : Bus) :
  writes_frames (read_status_packet self).
Proof.
  intros w. destruct (read_status_packet_reads self w) as (rs & _ & Ht & _).
  exists (map EvRead rs). split; [exact Ht|].
  rewrite writes_reads. constructor.
Qed.

Ltac frames :=
  repeat (cbv beta iota;
          first [ apply frames_ret | apply frames_raise | apply frames_lift
                | apply frames_log
                | apply frames_fill_and_write_packet
                | apply frames_read_status_packet
                | apply frames_when
                | apply frames_if
                | apply frames_bind; [|intro] ]).

Lemma frames_ping (self : Bus) (dev_id : Z) :
  writes_frames (ping respond self dev_id).
Proof.
  unfold ping, send_ping. apply frames_bind; [frames|]. intros _.
  apply frames_try; [|intros code]; frames.
Qed.

(** X8.  Whatever the operation and its arguments, every frame that the
    bus hands to the transport is a frame of the wire format: it starts
    with FF FF, its length byte counts the bytes that follow it, all its
    elements are bytes, and its checksum fits.  For [scan] this holds as
    long as the callbacks write such frames only. *)
Theorem bus_writes_frames (self : Bus) :
  (forall dev_id, writes_frames (ping respond self dev_id))
  /\ (forall dev_id offset num_bytes,
        writes_frames (read respond self dev_id offset num_bytes))
  /\ (forall dev_id offset data deferred,
        writes_frames (write respond self dev_id offset data deferred))
  /\ (forall dev_id, writes_frames (reset respond self dev_id))
  /\ writes_frames (action respond self)
  /\ (forall dev_ids offset values,
        writes_frames (sync_write respond self dev_ids offset values))
  /\ (forall start_id num_ids dev_found dev_missing,
        (forall f dev_id, dev_found = Some f \/ dev_missing = Some f ->
                          writes_frames (f self dev_id)) ->
        writes_frames
          (scan respond self start_id num_ids dev_found dev_missing)).
Proof.
  split; [|split; [|split; [|split; [|split; [|split]]]]].
  - apply frames_ping.
  - intros. unfold read, send_read. frames.
  - intros. unfold write, send_write. frames.
  - intros. unfold reset, send_reset. frames.
  - unfold action. frames.
  - intros. unfold sync_write. frames.
    apply frames_for_in. intros id_idx [d i]. frames.
  - intros start_id num_ids dev_found dev_missing Hcb.
    rewrite scan_eq. apply frames_for_in. intros dev_id acc.
    unfold scan_body. apply frames_bind; [apply frames_ping|].
    intros [|]; (apply frames_bind; [|intros _; apply frames_ret]).
    + destruct dev_found as [f|]; cbn [call]; [|apply frames_ret].
      apply Hcb. now left.
    + destruct dev_missing as [f|]; cbn [call]; [|apply frames_ret].
      apply Hcb. now right.
Qed.

End WireFrames.

(** ** The frame of a synchronised write *)

Section SyncFrame.

Context {pk : PacketModule}.
Variable respond : list event -> list Z -> list (option Z).

Import bytearray.

Lemma zeros_block (n b : nat) :
  zeros (S n * (b + 1)) = 0 :: zeros b ++ zeros (n * (b + 1)).
Proof.
  unfold zeros. replace (S n * (b + 1))%nat with (S (b + n * (b + 1))) by lia.
  cbn [repeat]. now rewrite repeat_app.
Qed.

Lemma nth_error_middle {A} (pre post : list A) (x : A) (pre' : list Z) :
  length pre' = length pre ->
  nth_error (pre ++ x :: post) (length pre') = Some x.
Proof.
  intros ->. rewrite nth_error_app2 by lia. now rewrite Nat.sub_diag.
Qed.

(** The loop fills one block [id, values...] per device, one behind the
    other, when every value list has [bytes_per_id] bytes. *)
Lemma sync_write_loop_fills (bytes_per_id : nat) (ids : list Z) :
  forall (vs : list (list Z)) (pre_ids : list Z) (pre_vs : list (list Z))
         (pre : list Z) (w : World),
    length ids = length vs ->
    length pre_ids = length pre_vs ->
    Forall (fun v => length v = bytes_per_id) vs ->
    forallb in_range ids = true ->
    Forall (fun v => forallb in_range v = true) vs ->
    for_in (seq (length pre_ids) (length ids))
           (sync_write_step (pre_ids ++ ids) (pre_vs ++ vs) bytes_per_id)
           (pre ++ zeros (length ids * (bytes_per_id + 1)),
            Z.of_nat (length pre)) w
    = (Ok (pre ++ flat_map (fun iv => fst iv :: snd iv) (combine ids vs),
           Z.of_nat (length pre + length ids * (bytes_per_id + 1))), w).
Proof.
  induction ids as [|id ids IH];
    intros vs pre_ids pre_vs pre w Hlen Hpre Hb Hids Hvs.
  - destruct vs; [|discriminate]. cbn. now rewrite Nat.add_0_r.
  - destruct vs as [|v vs]; [discriminate|].
    inversion Hb as [|? ? Hv Hb']; subst.
    inversion Hvs as [|? ? Hvok Hvs']; subst.
    cbn [forallb] in Hids. apply andb_true_iff in Hids.
    destruct Hids as [Hid Hids].
    cbn [length seq for_in]. unfold bind at 1. unfold sync_write_step at 1.
    unfold bind at 1, lift at 1, list_getitem at 1.
    rewrite (nth_error_middle pre_vs vs v pre_ids Hpre).
    rewrite Nat.eqb_refl. cbn [negb].
    unfold bind at 1, lift at 1, list_getitem at 1.
    rewrite (nth_error_middle pre_ids ids id pre_ids eq_refl).
    unfold bind at 1, lift at 1.
    rewrite zeros_block, (setitem_at pre 0 _ id Hid).
    unfold bind at 1, lift at 1.
    replace (pre ++ id :: zeros (length v)
                 ++ zeros (length ids * (length v + 1)))
      with ((pre ++ [id]) ++ zeros (length v)
                          ++ zeros (length ids * (length v + 1)))
      by (now rewrite <- app_assoc).
    replace (Z.of_nat (length pre) + 1)
      with (Z.of_nat (length (pre ++ [id])))
      by (rewrite length_app; cbn [length]; lia).
    replace (Z.of_nat (length (pre ++ [id])) + Z.of_nat (length v))
      with (Z.of_nat (length (pre ++ [id]) + length (zeros (length v))))
      by (unfold zeros; rewrite repeat_length; lia).
    rewrite (setslice_at (pre ++ [id]) (zeros (length v)) _ v Hvok).
    unfold ret at 1.
    replace (Z.of_nat (length (pre ++ [id]) + length (zeros (length v))))
      with (Z.of_nat (length ((pre ++ [id]) ++ v)))
      by (unfold zeros; rewrite !length_app, repeat_length; lia).
    replace ((pre ++ [id]) ++ v ++ zeros (length ids * (length v + 1)))
      with (((pre ++ [id]) ++ v) ++ zeros (length ids * (length v + 1)))
      by (now rewrite <- app_assoc).
    replace (S (length pre_ids)) with (length (pre_ids ++ [id]))
      by (rewrite length_app; cbn [length]; lia).
    replace (pre_ids ++ id :: ids) with ((pre_ids ++ [id]) ++ ids)
      by (now rewrite <- app_assoc).
    replace (pre_vs ++ v :: vs) with ((pre_vs ++ [v]) ++ vs)
      by (now rewrite <- app_assoc).
    rewrite IH; try assumption.
    + cbn [combine flat_map fst snd].
      replace (((pre ++ [id]) ++ v)
               ++ flat_map (fun iv => fst iv :: snd iv) (combine ids vs))
        with (pre ++ (id :: v)
                  ++ flat_map (fun iv => fst iv :: snd iv) (combine ids vs))
        by (rewrite <- !app_assoc; reflexivity).
      replace (length ((pre ++ [id]) ++ v) + length ids * (length v + 1))%nat
        with (length pre + S (length ids) * (length v + 1))%nat
        by (rewrite !length_app; cbn [length]; lia).
      reflexivity.
    + cbn [length] in Hlen. lia.
    + rewrite !length_app. cbn [length]. lia.
Qed.

Lemma forallb_blocks (ids : list Z) :
  forall vs : list (list Z),
    length ids = length vs ->
    forallb in_range
            (flat_map (fun iv => fst iv :: snd iv) (combine ids vs)) = true ->
    forallb in_range ids = true
    /\ Forall (fun v => forallb in_range v = true) vs.
Proof.
  induction ids as [|id ids IH]; intros [|v vs] Hlen H; try discriminate.
  - split; [reflexivity | constructor].
  - cbn [combine flat_map fst snd] in H.
    rewrite forallb_app in H. apply andb_true_iff in H.
    destruct H as [Hv H]. cbn [forallb] in Hv.
    apply andb_true_iff in Hv. destruct Hv as [Hid Hv].
    destruct (IH vs ltac:(cbn [length] in Hlen; lia) H) as [H1 H2].
    split; [cbn [forallb]; now rewrite Hid, H1 | now constructor].
Qed.

(** X1.  A synchronised write whose dimensions match (one value list per
    id, all of one length) and whose frame fits the byte fields hands
    exactly one frame to the transport, a broadcast SYNC_WRITE with the
    payload [offset, bytes_per_device, id1, values1..., id2,
    values2..., ...], returns, and reads nothing. *)
Theorem sync_write_frame (self : Bus) (dev_ids : list Z) (offset : Z)
        (values : list (list Z)) (w : World) :
  values <> [] ->
  length dev_ids = length values ->
  Forall (fun v => length v = length (hd [] values)) values ->
  FrameCodec.encodable Id_BROADCAST Command_SYNC_WRITE
                       (sync_payload offset dev_ids values) = true ->
  fst (sync_write respond self dev_ids offset values w) = Ok tt
  /\ since w (snd (sync_write respond self dev_ids offset values w))
     = [EvWrite (FrameCodec.encode Id_BROADCAST Command_SYNC_WRITE
                   (sync_payload offset dev_ids values))].
Proof.
  intros Hne Hlen Hall He.
  destruct values as [|v0 values]; [contradiction|]. cbn [hd] in Hall.
  pose proof (encodable_payload _ _ _ He) as Hp.
  unfold sync_payload in Hp. cbn [hd forallb] in Hp.
  apply andb_true_iff in Hp. destruct Hp as [Hoff Hp].
  apply andb_true_iff in Hp. destruct Hp as [Hbpi Hp].
  destruct (forallb_blocks dev_ids (v0 :: values) Hlen Hp) as [Hids Hvs].
  enough (E : exists dg,
             sync_write respond self dev_ids offset (v0 :: values) w
             = fill_and_write_packet respond self Id_BROADCAST
                 Command_SYNC_WRITE
                 (Some (sync_payload offset dev_ids (v0 :: values)))
                 (mkWorld (rx w) (trace w) dg)).
  { destruct E as [dg ->].
    pose proof (fill_and_write_packet_since respond self Id_BROADCAST
                  Command_SYNC_WRITE
                  (Some (sync_payload offset dev_ids (v0 :: values)))
                  (mkWorld (rx w) (trace w) dg)) as H.
    cbv beta iota zeta in H. rewrite He in H. destruct H as [H1 H2].
    split; [exact H1|]. exact (since_app w _ _ H2). }
  rewrite sync_write_eq.
  match goal with
  | |- context [(?c ;;; ?k) w] =>
      assert (Hq : quiet c) by (apply quiet_when; cbn; apply quiet_log);
      destruct (quiet_bind c k w Hq) as [dg ->]
  end.
  exists dg. cbv zeta. rewrite Hlen, Nat.eqb_refl. cbn [negb].
  unfold bind at 1, lift at 1. cbn [list_getitem nth_error].
  rewrite <- Hlen.
  replace (length dev_ids * (length v0 + 1) + 2)%nat
    with (S (S (length dev_ids * (length v0 + 1)))) by lia.
  change (zeros (S (S ?n))) with (0 :: 0 :: zeros n).
  unfold bind at 1, lift at 1. rewrite setitem_0 by exact Hoff.
  unfold bind at 1, lift at 1. rewrite setitem_1 by exact Hbpi.
  unfold bind at 1.
  pose proof (sync_write_loop_fills (length v0) dev_ids (v0 :: values) [] []
                [offset; Z.of_nat (length v0)]
                (mkWorld (rx w) (trace w) dg) Hlen eq_refl Hall Hids Hvs)
    as Hloop.
  cbn [app length] in Hloop. change (Z.of_nat 2) with 2 in Hloop.
  rewrite Hloop. reflexivity.
Qed.

End SyncFrame.

(** ** The edges of a scan *)

Section ScanEdges.

Context {pk : PacketModule}.
Variable respond : list event -> list Z -> list (option Z).

Lemma range_empty (lo hi : Z) : hi <= lo -> range lo hi = [].
Proof.
  intros H. unfold range.
  replace (Z.to_nat (hi - lo)) with 0%nat by lia. reflexivity.
Qed.

Lemma range_first (lo hi : Z) :
  lo < hi -> exists rest, range lo hi = lo :: rest.
Proof.
  intros H. unfold range.
  destruct (Z.to_nat (hi - lo)) as [|n] eqn:E; [lia|].
  cbn [seq map]. rewrite Z.add_0_r. eexists. reflexivity.
Qed.

(** X9.  A scan over an empty range does nothing: when the count is not
    positive, or the start id is not below the broadcast id, [scan]
    returns [False] at once; no ping is sent and no callback is called. *)
Theorem scan_empty_range (self : Bus) (start_id num_ids : Z)
        (dev_found dev_missing : callback) (w : World) :
  num_ids <= 0 \/ Id_BROADCAST <= start_id ->
  scan respond self start_id num_ids dev_found dev_missing w = (Ok false, w).
Proof.
  intros H. rewrite scan_eq. unfold ids_to_scan.
  rewrite range_empty by lia. reflexivity.
Qed.

(** X10.  A scan never gets past a start id that is no byte: when the
    range is not empty and the start id lies outside 0..255, [scan]
    raises [ValueError] at its first ping; nothing is written or read and
    no callback is called. *)
Theorem scan_refuses_bad_start (self : Bus) (start_id num_ids : Z)
        (dev_found dev_missing : callback) (w : World) :
  bytearray.in_range start_id = false ->
  0 < num_ids -> start_id < Id_BROADCAST ->
  fst (scan respond self start_id num_ids dev_found dev_missing w)
  = Raise ValueError
  /\ trace (snd (scan respond self start_id num_ids dev_found dev_missing w))
     = trace w.
Proof.
  intros Hbad Hn Hb. rewrite scan_eq. unfold ids_to_scan.
  assert (Hlt : start_id < Z.min (start_id + num_ids) Id_BROADCAST)
    by (apply Z.min_glb_lt; lia).
  destruct (range_first start_id _ Hlt) as [rest ->].
  cbn [for_in]. unfold bind. rewrite scan_body_eq, ping_eq.
  pose proof (send_ping_sent respond self start_id w) as Hs.
  unfold sent, FrameCodec.encodable in Hs. rewrite Hbad in Hs.
  cbn [andb] in Hs. destruct Hs as [H1 H2].
  destruct (send_ping respond self start_id w) as [[[]|e] w1];
    cbn [fst snd] in *; [discriminate|].
  inversion H1; subst. split; [reflexivity | exact H2].
Qed.

End ScanEdges.

(** ** The exchange of a ping *)

Section PingExchange.

Context {pk : PacketModule}.
Variable respond : list event -> list Z -> list (option Z).

(** X14.  [ping] sends the six-byte frame FF FF id 02 cmd checksum and
    then only reads, at least once, also for the broadcast id; it ends
    with a value or with a [BusError] other than TIMEOUT.  When the id
    does not fit a byte it raises [ValueError] and writes and reads
    nothing. *)
Theorem ping_exchange (self : Bus) (dev_id : Z) (w : World) :
  let out := ping respond self dev_id w in
  if FrameCodec.encodable dev_id Command_PING []
  then exists checksum rs,
         rs <> []
         /\ since w (snd out)
            = EvWrite [255; 255; dev_id; 2; Command_PING; checksum]
              :: map EvRead rs
         /\ match fst out with
            | Ok _ => True
            | Raise (BusError error_code) => error_code <> ErrorCode_TIMEOUT
            | Raise _ => False
            end
  else fst out = Raise ValueError /\ since w (snd out) = [].
Proof.
  cbv zeta. rewrite ping_eq.
  destruct (FrameCodec.encodable _ _ _) eqn:He.
  - assert (Hq : quiet (when (shows self SHOW_COMMANDS)
                             (log (LogSendingPing dev_id))))
      by (apply quiet_when, quiet_log).
    destruct (sent_world respond _ self dev_id Command_PING None w Hq He)
      as [dg Es].
    unfold send_ping. rewrite Es. set (w1 := mkWorld _ _ dg).
    destruct (read_status_packet_reads self w1) as (rs & Hne & Ht & Hr).
    assert (Hs : trace (snd (read_status_packet self w1))
                 = trace w ++ EvWrite (FrameCodec.encode dev_id Command_PING [])
                           :: map EvRead rs)
      by (rewrite Ht; subst w1; cbn [trace]; now rewrite <- app_assoc).
    eexists. exists rs. split; [exact Hne|].
    destruct (read_status_packet self w1) as [[pkt|[| |c]] w2];
      cbn [fst snd] in *; try contradiction.
    + split; [exact (since_app _ _ _ Hs) | exact I].
    + destruct (Z.eqb_spec c ErrorCode_TIMEOUT); cbn [fst snd];
        (split; [exact (since_app _ _ _ Hs) | trivial]).
  - pose proof (send_ping_sent respond self dev_id w) as Hs.
    unfold sent in Hs. rewrite He in Hs. destruct Hs as [H1 H2].
    destruct (send_ping respond self dev_id w) as [[[]|e] w1];
      cbn [fst snd] in *; [discriminate|].
    inversion H1; subst. split; [reflexivity | now apply since_same].
Qed.

End PingExchange.

(** * The statements on a concrete bus

    The theorems above hold for every [bioloid.packet] module and every
    line; here they are applied to the module of the specification and
    to simulated lines. *)

Import SpecPacket.

(** The parser of the specification on its two example sequences. *)
Example status_frame_parsed :
  read_status_packet bus (mkWorld (map Some [255; 255; 1; 2; 0; 252]) [] [])
  = (Ok (mkParser Terminal 1 2 0 [] NONE),
     mkWorld [] (map EvRead (map Some [255; 255; 1; 2; 0; 252]))
             [LogStatusNone 1; LogReceived [255; 255; 1; 2; 0; 252]]).
Proof. vm_compute. reflexivity. Qed.

Example status_frame_corrupted :
  fst (read_status_packet bus
         (mkWorld (map Some [255; 255; 1; 2; 0; 253]) [] []))
  = Raise (BusError CHECKSUM).
Proof. vm_compute. reflexivity. Qed.

(** The specification's example frame, with the write command 0x03. *)
Lemma write_example_witness :
  Command_WRITE = 3
  /\ writes (since idle (snd (write (answers 1) bus 1 24 [1; 0] false idle)))
     = [[255; 255; 1; 5; 3; 24; 1; 0; 221]].
Proof.
  split; [reflexivity|].
  exact (proj2 (proj2 (write_example (answers 1) bus idle eq_refl))).
Defined.

(** A silent line makes [ping] return [False]; an answering device makes
    it return [True]; a corrupted answer leaves [ping] as
    [BusError(CHECKSUM)]. *)
Lemma ping_outcomes_witness :
  fst (ping silent bus 5 idle) = Ok false
  /\ ping (answers 5) bus 5 idle
     = (Ok true,
        mkWorld []
          [EvWrite [255; 255; 5; 2; 1; 247]; EvRead (Some 255);
           EvRead (Some 255); EvRead (Some 5); EvRead (Some 2);
           EvRead (Some 0); EvRead (Some 248)]
          [LogStatusNone 5; LogReceived [255; 255; 5; 2; 0; 248]])
  /\ ping (garbled 5) bus 5 idle
     = (Raise (BusError CHECKSUM),
        mkWorld []
          [EvWrite [255; 255; 5; 2; 1; 247]; EvRead (Some 255);
           EvRead (Some 255); EvRead (Some 5); EvRead (Some 2);
           EvRead (Some 0); EvRead (Some 247)]
          [LogChecksum; LogReceived [255; 255; 5; 2; 0; 247]]).
Proof.
  split; [|split].
  - refine (proj2 (proj2 (proj2 (proj2
              (ping_outcomes silent bus 5 idle idle))))
              (mkWorld [] [EvWrite [255; 255; 5; 2; 1; 247]] []) _ _);
      vm_compute; reflexivity.
  - apply (proj2 (proj1 (proj2 (ping_outcomes (answers 5) bus 5 idle _)))).
    exists (mkWorld (map Some [255; 255; 5; 2; 0; 248])
                    [EvWrite [255; 255; 5; 2; 1; 247]] []).
    exists (mkParser Terminal 5 2 0 [] 0).
    split; vm_compute; reflexivity.
  - refine (proj2 (proj1 (proj2 (proj2
              (ping_outcomes (garbled 5) bus 5 idle _))) CHECKSUM _) _);
      [discriminate|].
    exists (mkWorld (map Some [255; 255; 5; 2; 0; 247])
                    [EvWrite [255; 255; 5; 2; 1; 247]] []).
    split; vm_compute; reflexivity.
Defined.

(** A broadcast write of two bytes: one frame, NONE, no read. *)
Lemma broadcast_no_response_witness :
  fst (write (answers 1) bus Id_BROADCAST 24 [1; 0] false idle)
  = Ok ErrorCode_NONE
  /\ since idle (snd (write (answers 1) bus Id_BROADCAST 24 [1; 0] false idle))
     = [EvWrite [255; 255; 254; 5; 3; 24; 1; 0; 224]].
Proof.
  refine (proj1 (proj2 (proj2
            (broadcast_no_response (answers 1) bus 24 [1; 0] false idle)))
            _ _ _ _ _); try (vm_compute; reflexivity).
  cbn [length]. lia.
Defined.

(** C5 as stated fails: a broadcast write of an empty [data] raises
    [IndexError] on [pkt_data[0] = offset], and one of 253 bytes raises
    [ValueError] on the length byte; neither writes a frame nor returns
    NONE. *)
Lemma broadcast_write_refused :
  write silent bus Id_BROADCAST 24 [] false idle = (Raise IndexError, idle)
  /\ write silent bus Id_BROADCAST 24 (repeat 0 253) false idle
     = (Raise ValueError, idle)
  /\ fst (write silent bus Id_BROADCAST 24 [] false idle)
     <> Ok ErrorCode_NONE
  /\ writes (since idle (snd (write silent bus Id_BROADCAST 24 [] false idle)))
     = [].
Proof.
  split; [reflexivity|]. split; [vm_compute; reflexivity|].
  split; [discriminate | reflexivity].
Qed.

(** The specification's scan example: only device 2 answers. *)
Example scan_example :
  scan (answers 2) bus 0 4 record_found record_missing idle
  = (Ok true,
     mkWorld []
       [EvWrite [255; 255; 0; 2; 1; 252]; EvRead None; EvMissing 0;
        EvWrite [255; 255; 1; 2; 1; 251]; EvRead None; EvMissing 1;
        EvWrite [255; 255; 2; 2; 1; 250];
        EvRead (Some 255); EvRead (Some 255); EvRead (Some 2);
        EvRead (Some 2); EvRead (Some 0); EvRead (Some 251); EvFound 2;
        EvWrite [255; 255; 3; 2; 1; 249]; EvRead None; EvMissing 3]
       [LogTimeout; LogNoData; LogTimeout; LogNoData;
        LogStatusNone 2; LogReceived [255; 255; 2; 2; 0; 251];
        LogTimeout; LogNoData]).
Proof. vm_compute. reflexivity. Qed.


(** A corrupted answer from device 1 stops the scan of 0, 1, 2 there. *)
Lemma scan_error_propagates_witness :
  scan (garbled 1) bus 0 3 record_found record_missing idle
  = (Raise (BusError CHECKSUM),
     mkWorld []
       [EvWrite [255; 255; 0; 2; 1; 252]; EvRead None; EvMissing 0;
        EvWrite [255; 255; 1; 2; 1; 251];
        EvRead (Some 255); EvRead (Some 255); EvRead (Some 1);
        EvRead (Some 2); EvRead (Some 0); EvRead (Some 251)]
       [LogTimeout; LogNoData; LogChecksum;
        LogReceived [255; 255; 1; 2; 0; 251]]).
Proof.
  refine (proj1 (scan_error_propagates (garbled 1) bus 0 3
                   record_found record_missing idle [0] [2] 1 [false]
                   (mkWorld [] [EvWrite [255; 255; 0; 2; 1; 252]; EvRead None;
                                EvMissing 0]
                            [LogTimeout; LogNoData])
                   _ CHECKSUM _ _ _)).
  - reflexivity.
  - econstructor; [vm_compute; reflexivity | reflexivity | constructor].
  - vm_compute. reflexivity.
Defined.


(** A synchronised write to devices 1 and 2, two bytes each. *)
Lemma sync_write_frame_witness :
  fst (sync_write (answers 1) bus [1; 2] 30 [[0; 1]; [2; 3]] idle) = Ok tt
  /\ since idle (snd (sync_write (answers 1) bus [1; 2] 30
                        [[0; 1]; [2; 3]] idle))
     = [EvWrite [255; 255; 254; 10; 131; 30; 2; 1; 0; 1; 2; 2; 3; 75]].
Proof.
  refine (sync_write_frame (answers 1) bus [1; 2] 30 [[0; 1]; [2; 3]] idle
            _ _ _ _).
  - discriminate.
  - reflexivity.
  - repeat constructor.
  - vm_compute. reflexivity.
Defined.

(** The specification's example of mismatched value lengths. *)
Lemma sync_write_validation_witness :
  fst (sync_write (answers 1) bus [1; 2] 30 [[0; 1]; [2]] idle)
  = Raise ValueError
  /\ trace (snd (sync_write (answers 1) bus [1; 2] 30 [[0; 1]; [2]] idle))
     = trace idle.
Proof.
  refine (sync_write_validation (answers 1) bus [1; 2] 30 [[0; 1]; [2]] idle
            _ _).
  - left. reflexivity.
  - right. exists [2]. split; [right; left; reflexivity | discriminate].
Defined.

(** The same synchronised write with tracing off and with tracing on. *)
Lemma verbosity_observational_witness :
  same_outcome
    (sync_write (answers 1) (mkBus SHOW_NONE) [1; 2] 30 [[0; 1]; [2; 3]] idle)
    (sync_write (answers 1) (mkBus (Z.lor SHOW_COMMANDS SHOW_PACKETS))
                [1; 2] 30 [[0; 1]; [2; 3]] idle).
Proof.
  refine (proj1 (proj2 (proj2 (proj2 (proj2 (proj2
            (verbosity_observational (answers 1) (mkBus SHOW_NONE)
               (mkBus (Z.lor SHOW_COMMANDS SHOW_PACKETS))))))))
            [1; 2] 30 [[0; 1]; [2; 3]] _ idle idle _).
  - discriminate.
  - split; reflexivity.
Defined.

(** A status frame followed by a stray byte: the read stops after the
    frame and leaves the stray byte pending. *)
Lemma read_status_packet_completes_witness :
  fst (read_status_packet bus
         (mkWorld (map Some ([255; 255; 1; 2; 0] ++ [252]) ++ [Some 7]) [] []))
  = Ok (mkParser Terminal 1 2 0 [] NONE)
  /\ rx (snd (read_status_packet bus
                (mkWorld (map Some ([255; 255; 1; 2; 0] ++ [252]) ++ [Some 7])
                         [] [])))
     = [Some 7]
  /\ reads (since
              (mkWorld (map Some ([255; 255; 1; 2; 0] ++ [252]) ++ [Some 7])
                       [] [])
              (snd (read_status_packet bus
                      (mkWorld (map Some ([255; 255; 1; 2; 0] ++ [252])
                                ++ [Some 7]) [] []))))
     = map Some ([255; 255; 1; 2; 0] ++ [252]).
Proof.
  refine (read_status_packet_completes bus
            (mkWorld (map Some ([255; 255; 1; 2; 0] ++ [252]) ++ [Some 7])
                     [] [])
            [255; 255; 1; 2; 0] 252 NONE
            (mkParser ReadChecksum 1 2 0 [] NOT_DONE)
            (mkParser Terminal 1 2 0 [] NONE) [Some 7] _ _ _ _).
  - reflexivity.
  - vm_compute. reflexivity.
  - vm_compute. reflexivity.
  - discriminate.
Defined.

(** A status frame cut short after three bytes. *)
Lemma read_status_packet_starved_witness :
  fst (read_status_packet bus (mkWorld (map Some [255; 255; 1] ++ []) [] []))
  = Raise (BusError TIMEOUT)
  /\ rx (snd (read_status_packet bus
                (mkWorld (map Some [255; 255; 1] ++ []) [] [])))
     = tl []
  /\ reads (since (mkWorld (map Some [255; 255; 1] ++ []) [] [])
              (snd (read_status_packet bus
                      (mkWorld (map Some [255; 255; 1] ++ []) [] []))))
     = map Some [255; 255; 1] ++ [None].
Proof.
  refine (read_status_packet_starved bus
            (mkWorld (map Some [255; 255; 1] ++ []) [] [])
            [255; 255; 1] (mkParser ReadLength 1 0 0 [] NOT_DONE) [] _ _ _).
  - reflexivity.
  - reflexivity.
  - vm_compute. reflexivity.
Defined.


(** The frames of the specification's scan example. *)
Lemma bus_writes_frames_witness :
  exists delta,
    trace (snd (scan (answers 2) bus 0 4 record_found record_missing idle))
    = trace idle ++ delta
    /\ Forall wire_frame (writes delta).
Proof.
  refine (proj2 (proj2 (proj2 (proj2 (proj2 (proj2
            (bus_writes_frames (answers 2) bus))))))
            0 4 record_found record_missing _ idle).
  intros f dev_id [H|H]; inversion H; subst; intros w;
    eexists; (split; [reflexivity | constructor]).
Defined.

(** A scan of no ids. *)
Lemma scan_empty_range_witness :
  scan (answers 2) bus 5 0 record_found record_missing idle = (Ok false, idle).
Proof.
  refine (scan_empty_range (answers 2) bus 5 0 record_found record_missing
            idle _).
  left. lia.
Defined.

(** A scan that starts at the id -1. *)
Lemma scan_refuses_bad_start_witness :
  fst (scan (answers 2) bus (-1) 3 record_found record_missing idle)
  = Raise ValueError
  /\ trace (snd (scan (answers 2) bus (-1) 3 record_found record_missing idle))
     = trace idle.
Proof.
  refine (scan_refuses_bad_start (answers 2) bus (-1) 3 record_found
            record_missing idle _ _ _).
  - reflexivity.
  - lia.
  - reflexivity.
Defined.

(** The scan of the specification's example ends with a value. *)
Lemma scan_outcome_witness :
  match fst (scan (answers 2) bus 0 4 record_found record_missing idle) with
  | Ok _ | Raise (BusError _) => True
  | Raise _ => False
  end.
Proof.
  pose proof (scan_outcome (answers 2) bus 0 4 idle) as H.
  assert (H0 : 0 <= 0) by lia.
  assert (H1 : Id_BROADCAST <= 256) by discriminate.
  assert (H2 : bytearray.in_range Command_PING = true) by reflexivity.
  exact (H H0 H1 H2).
Defined.

(** The code of a corrupted status frame. *)
Lemma read_status_packet_codes_witness :
  CHECKSUM <> NOT_DONE /\ CHECKSUM <> NONE.
Proof.
  refine (read_status_packet_codes bus
            (mkWorld (map Some [255; 255; 1; 2; 0; 251]) [] [])
            CHECKSUM _ _ _).
  - discriminate.
  - discriminate.
  - vm_compute. reflexivity.
Defined.
